(** * go-youtube: request building, validation and error translation

    A shallow embedding of the parameter builders ([claims.go], [video.go],
    the whitelist file), of the request/response core ([request.go] and its
    earlier copy) and of the bearer-token runner, followed by the properties
    of the specification that concern them.

    Go strings are byte strings: they are modelled by [string] (a list of
    8-bit [ascii]).  A [url.Values] is a Go [map[string][]string]: it is
    modelled by a [gmap string (list string)]. *)

From Stdlib Require Import ZArith Ascii String List Bool.
From stdpp Require Import base option list gmap strings.
Import ListNotations.

Local Open Scope string_scope.
Local Open Scope list_scope.

(** ** Strings *)

Module strings.

(** [s != ""] *)
Definition nonempty (s : string) : bool := negb (String.eqb s "").

(** [strings.Join(elems, sep)] *)
Fixpoint Join (elems : list string) (sep : string) : string :=
  match elems with
  | [] => ""
  | [a] => a
  | a :: rest => a +:+ sep +:+ Join rest sep
  end.

(** [strings.HasPrefix(s, prefix)] *)
Fixpoint HasPrefix (s prefix : string) : bool :=
  match prefix, s with
  | EmptyString, _ => true
  | String _ _, EmptyString => false
  | String p prefix', String c s' => Ascii.eqb c p && HasPrefix s' prefix'
  end.

(** [strings.Index(s, substr) > -1] *)
Fixpoint Contains (s substr : string) : bool :=
  HasPrefix s substr ||
  match s with
  | EmptyString => false
  | String _ s' => Contains s' substr
  end.

End strings.

(** ** [net/url]: query values and their encoding *)

Module url.

(** [url.Values], a [map[string][]string]. *)
Abbreviation Values := (gmap string (list string)).

(** [v.Add(key, value)]: appends to the values already held by [key]. *)
Definition Add (key value : string) (v : Values) : Values :=
  <[key := default [] (v !! key) ++ [value]]> v.

(** [v.Set(key, value)]: replaces the values held by [key]. *)
Definition Set_ (key value : string) (v : Values) : Values :=
  <[key := [value]]> v.

(** [v.Has(key)] *)
Definition Has (key : string) (v : Values) : bool :=
  match v !! key with Some _ => true | None => false end.

Definition is_digit (c : ascii) : bool :=
  let n := nat_of_ascii c in (48 <=? n)%nat && (n <=? 57)%nat.

Definition is_alpha (c : ascii) : bool :=
  let n := nat_of_ascii c in
  ((65 <=? n)%nat && (n <=? 90)%nat) || ((97 <=? n)%nat && (n <=? 122)%nat).

(** [shouldEscape(c, encodeQueryComponent)]: unreserved characters are
    the alphanumerics and [-_.~]; every other byte is escaped in a query
    component. *)
Definition shouldEscape (c : ascii) : bool :=
  if is_alpha c || is_digit c then false
  else if Ascii.eqb c "-" || Ascii.eqb c "_" || Ascii.eqb c "." || Ascii.eqb c "~"
  then false
  else true.

Definition upperhex (n : nat) : ascii :=
  nth n (list_ascii_of_string "0123456789ABCDEF") "0"%char.

(** [url.QueryEscape(s)] *)
Fixpoint QueryEscape (s : string) : string :=
  match s with
  | EmptyString => EmptyString
  | String c s' =>
      if Ascii.eqb c " " then String "+" (QueryEscape s')
      else if shouldEscape c then
        String "%" (String (upperhex (nat_of_ascii c / 16))
                      (String (upperhex (nat_of_ascii c mod 16)) (QueryEscape s')))
      else String c (QueryEscape s')
  end.

(** [slices.Sort(keys)] on strings (bytewise order); insertion sort is
    enough, the keys of a map being distinct. *)
Fixpoint insert_sorted (k : string) (ks : list string) : list string :=
  match ks with
  | [] => [k]
  | k' :: ks' => if String.leb k k' then k :: ks else k' :: insert_sorted k ks'
  end.

Definition sort_keys (ks : list string) : list string :=
  foldr insert_sorted [] ks.

(** The body of the two nested loops of [Encode]: one [key=value] pair
    per value, separated by [&]. *)
Definition write_pair (buf keyEscaped value : string) : string :=
  (if strings.nonempty buf then buf +:+ "&" else buf)
    +:+ keyEscaped +:+ "=" +:+ QueryEscape value.

Definition write_key (v : Values) (buf key : string) : string :=
  foldl (fun b value => write_pair b (QueryEscape key) value)
        buf (default [] (v !! key)).

(** [v.Encode()]: the URL-encoded form, sorted by key. *)
Definition Encode (v : Values) : string :=
  foldl (write_key v) "" (sort_keys (map fst (map_to_list v))).

End url.

(** ** Claims ([claims.go]) *)

Definition ClaimStatus := string.

Definition ClaimStatusActive : ClaimStatus := "active".
Definition ClaimStatusAppealed : ClaimStatus := "appealed".
Definition ClaimStatusDisputed : ClaimStatus := "disputed".
Definition ClaimStatusInactive : ClaimStatus := "inactive".
Definition ClaimStatusPending : ClaimStatus := "pending".
Definition ClaimStatusPotential : ClaimStatus := "potential".
Definition ClaimStatusRoutedForReview : ClaimStatus := "routedForReview".
Definition ClaimStatusTakedown : ClaimStatus := "takedown".

Definition ClaimSortDate : string := "date".
Definition ClaimSortViewCount : string := "viewCount".

(** The eight recognised values, in the order of the [switch]. *)
Definition claim_statuses : list ClaimStatus :=
  [ ClaimStatusActive; ClaimStatusAppealed; ClaimStatusDisputed;
    ClaimStatusInactive; ClaimStatusPending; ClaimStatusPotential;
    ClaimStatusRoutedForReview; ClaimStatusTakedown ].

(** [func (s ClaimStatus) Valid() bool] *)
Definition ClaimStatus_Valid (s : ClaimStatus) : bool :=
  existsb (String.eqb s) claim_statuses.

Record SearchClaimsParams := {
  scp_AssetId : string;
  scp_Q : string;
  scp_ReferenceId : string;
  scp_VideoIds : list string;
  scp_PageToken : string;
  scp_Status : ClaimStatus;
  scp_IncludeThirdPartyClaims : bool;
  scp_OnBehalfOfContentOwner : string;
  scp_Sort : string;
  scp_StatusModifiedAfter : string
}.

(** The loop of [Validate]: [count] is incremented on every non-empty
    entry, and the function leaves with [false] as soon as it exceeds 1.
    [None] stands for that early return. *)
Fixpoint count_required (required : list string) (count : nat) : option nat :=
  match required with
  | [] => Some count
  | r :: rest =>
      let count := if strings.nonempty r then S count else count in
      if (1 <? count)%nat then None else count_required rest count
  end.

(** [func (p *SearchClaimsParams) Validate() bool] *)
Definition SearchClaimsParams_Validate (p : SearchClaimsParams) : bool :=
  let required :=
    [ scp_AssetId p; scp_Q p; scp_ReferenceId p;
      strings.Join (scp_VideoIds p) ","; scp_Status p ] in
  match count_required required 0 with
  | None => false
  | Some _ =>
      if String.eqb (scp_Status p) "" || negb (ClaimStatus_Valid (scp_Status p))
      then false
      else true
  end.

(** ** [regexp]: the date pattern

    [DateRegexp] is compiled from [\d{4}-\d{2}-\d{2}]: a sequence of
    single-byte atoms once the counted repetitions are unfolded.  [\d] is
    the ASCII class [0-9]. *)

Module regexp.

Inductive atom : Type :=
| Digit
| Lit (c : ascii).

Definition atom_matches (a : atom) (c : ascii) : bool :=
  match a with
  | Digit => url.is_digit c
  | Lit l => Ascii.eqb c l
  end.

(** The pattern matches a prefix of [s]. *)
Fixpoint match_here (pat : list atom) (s : string) : bool :=
  match pat, s with
  | [], _ => true
  | _ :: _, EmptyString => false
  | a :: pat', String c s' => atom_matches a c && match_here pat' s'
  end.

(** [re.MatchString(s)]: reports whether [s] contains any match of the
    pattern; the search tries every start position. *)
Fixpoint MatchString (pat : list atom) (s : string) : bool :=
  match_here pat s ||
  match s with
  | EmptyString => false
  | String _ s' => MatchString pat s'
  end.

(** The pattern matches [s] as a whole: every byte of [s] is consumed.
    This is the reading of the specification ("matches exactly"); the
    code does not call it. *)
Fixpoint FullMatch (pat : list atom) (s : string) : bool :=
  match pat, s with
  | [], EmptyString => true
  | a :: pat', String c s' => atom_matches a c && FullMatch pat' s'
  | _, _ => false
  end.

End regexp.

Definition DateRegexp : list regexp.atom :=
  let d := regexp.Digit in
  let dash := regexp.Lit "-" in
  [d; d; d; d; dash; d; d; dash; d; d].

(** [func (p *SearchClaimsParams) Values() url.Values] *)
Definition SearchClaimsParams_Values (p : SearchClaimsParams) : url.Values :=
  let vals : url.Values := ∅ in
  let vals := if strings.nonempty (scp_AssetId p)
              then url.Add "assetId" (scp_AssetId p) vals else vals in
  let vals := if strings.nonempty (scp_Q p)
              then url.Add "q" (scp_Q p) vals else vals in
  let vals := if strings.nonempty (scp_ReferenceId p)
              then url.Add "referenceId" (scp_ReferenceId p) vals else vals in
  let vals := if (0 <? length (scp_VideoIds p))%nat
              then url.Add "videoId" (strings.Join (scp_VideoIds p) ",") vals
              else vals in
  let vals := if strings.nonempty (scp_Status p)
              then url.Add "status" (scp_Status p) vals else vals in
  let vals := if scp_IncludeThirdPartyClaims p
              then url.Add "includeThirdPartyClaims" "true" vals
              else url.Add "includeThirdPartyClaims" "false" vals in
  let vals := if strings.nonempty (scp_OnBehalfOfContentOwner p)
              then url.Add "onBehalfOfContentOwner" (scp_OnBehalfOfContentOwner p) vals
              else vals in
  let vals := if strings.nonempty (scp_PageToken p)
              then url.Add "pageToken" (scp_PageToken p) vals else vals in
  let vals := if String.eqb (scp_Sort p) ClaimSortDate
              then url.Add "sort" "date" vals
              else if String.eqb (scp_Sort p) ClaimSortViewCount
              then url.Add "sort" "viewCount" vals
              else vals in
  let vals := if strings.nonempty (scp_StatusModifiedAfter p)
                 && regexp.MatchString DateRegexp (scp_StatusModifiedAfter p)
              then url.Add "statusModifiedAfter" (scp_StatusModifiedAfter p) vals
              else vals in
  vals.

Record PatchClaimsParams := {
  pcp_ClaimId : string;
  pcp_OnBehalfOfContentOwner : string;
  pcp_Status : ClaimStatus
}.

(** [func (p *PatchClaimsParams) Validate() bool] *)
Definition PatchClaimsParams_Validate (p : PatchClaimsParams) : bool :=
  strings.nonempty (pcp_ClaimId p)
  && strings.nonempty (pcp_Status p)
  && ClaimStatus_Valid (pcp_Status p).

(** ** Errors

    A Go [error] is an interface value: what a type assertion sees is the
    dynamic type of the value it holds.  The cases below are the dynamic
    types that occur in the package. *)

Module Error.

(** The struct [Error], with the four fields that the sources read or
    write ([StatusCode], [ErrorType], [Description], [Body]). *)
Record t := mk {
  StatusCode : Z;
  ErrorType : string;
  Description : string;
  Body : string
}.

(** [var e Error] *)
Definition zero : t :=
  {| StatusCode := 0; ErrorType := ""; Description := ""; Body := "" |}.

End Error.

Inductive error : Type :=
| errors_New (text : string)       (* a sentinel made by [errors.New] *)
| lib_error (text : string)        (* an error of [io], [encoding/json] or the transport *)
| Error_value (e : Error.t)        (* dynamic type [Error] *)
| Error_pointer (e : Error.t).     (* dynamic type [*Error] *)

Inductive result (A : Type) : Type :=
| Ok (a : A)
| Err (e : error).
Arguments Ok {A} a.
Arguments Err {A} e.

Definition ErrInvalidClaimSearchParams : error := errors_New "invalid claim search params".
Definition ErrInvalidPatchClaimsParams : error := errors_New "invalid patch claims params".
Definition ErrNotWhitelisted : error := errors_New "not whitelisted".
Definition ErrRateLimited : error := errors_New "rate limited".

(** The error-type tags [ErrTypeUnknown], [ErrTypeBody] and [ErrTypeJSON]
    are used by [DecodeResponse] but declared in a file that is not among
    the sources: the development is parametric in them. *)
Class ErrTypes := {
  ErrTypeUnknown : string;
  ErrTypeBody : string;
  ErrTypeJSON : string
}.

(** ** Readers and [encoding/json] *)

Module io.

(** An [io.Reader] over a response body: successive reads deliver
    [pending], then end with [io.EOF] ([fault = None]) or fail with the
    error of text [fault]. *)
Record Reader := mkReader {
  pending : string;
  fault : option string
}.

(** [ioutil.ReadAll(r)]: everything up to the end of the stream, and the
    error that stopped it, if any. *)
Definition ReadAll (r : Reader) : string * option string :=
  (pending r, fault r).

End io.

Module bytes.

(** [bytes.NewReader(b)] *)
Definition NewReader (b : string) : io.Reader :=
  {| io.pending := b; io.fault := None |}.

End bytes.

Module json.

(** [json.NewDecoder(r).Decode(&v)] for a non-nil pointer to a [T] that
    currently holds [v]: the reader as the decoder leaves it, the value
    after the call (a failed call may have written part of it), and the
    text of the error, if any. *)
Class Decoder (T : Type) := Decode : io.Reader -> T -> io.Reader * T * option string.

(** The scanning half of [Decode]: read one complete JSON value from the
    stream. *)
Class Scanner := readValue : io.Reader -> io.Reader * option string.

(** [json.NewDecoder(r).Decode(nil)]: the value is read first, and the
    unmarshalling step then refuses the nil target
    ([InvalidUnmarshalError]); the call fails in every case. *)
Definition Decode_nil `{Scanner} (r : io.Reader) : io.Reader * string :=
  let '(r', err) := readValue r in
  (r', default "json: Unmarshal(nil)" err).

End json.

(** ** The request/response core ([request.go]) *)

Module http.

Definition MethodGet : string := "GET".
Definition MethodPost : string := "POST".
Definition MethodPatch : string := "PATCH".
Definition MethodDelete : string := "DELETE".

(** The part of [*http.Response] that the package reads. *)
Record Response := mkResponse {
  StatusCode : Z;
  Body : io.Reader
}.

(** The part of [*http.Request] that the runners set. *)
Record Request := mkRequest {
  Method : string;
  URL : string;
  Header : gmap string (list string);
  ReqBody : option (gmap string string)
}.

(** What lies behind the runners: the checks that [http.NewRequest]
    makes on the method and the URL (the text of its error when it
    refuses them), and the round trip of [client.Do] under a timeout. *)
Class Transport := {
  NewRequest_refuses : string -> string -> option string;
  Client_Do : Z -> Request -> result Response
}.

End http.

Definition BaseUrlV3 : string := "https://www.googleapis.com/youtube/v3".
Definition YoutubePartnerV1 : string := "https://www.googleapis.com/youtube/partner/v1".

(** [Request].  A body is always a reader over the [json.Marshal] encoding
    of a [map[string]interface{}] with string values: the map stands for
    it. *)
Record Request := mkRequest {
  Method : string;
  Url : string;
  Params : url.Values;
  Body : option (gmap string string)
}.

(** [RequestRunner]: what [Run] answers to a request. *)
Definition RequestRunner : Type := Request -> result http.Response.

(** Operations run against a log of the requests handed to the runner. *)
Definition Net (A : Type) : Type := list Request -> A * list Request.

#[export] Instance Net_ret : MRet Net := fun A a log => (a, log).

#[export] Instance Net_bind : MBind Net :=
  fun A B k m log => let '(a, log') := m log in k a log'.

(** [runner.Run(r)] *)
Definition Run (runner : RequestRunner) (r : Request) : Net (result http.Response) :=
  fun log => (runner r, log ++ [r]).

(** The requests issued by an operation started on an empty log. *)
Definition issued {A} (m : Net A) : list Request := snd (m []).

(** What the operation returns. *)
Definition outcome {A} (m : Net A) : A := fst (m []).

Section Core.
Context `{ErrTypes} `{json.Scanner} `{json.Decoder Error.t}.
Context {T : Type} `{json.Decoder T}.

(** The failure branch of [DecodeResponse] below status 400, once
    [Decode(out)] has failed with [text] and left the stream at [rest]:
    the rest of the body is read and a typed error is built. *)
Definition decode_failure (rest : io.Reader) (text : string) : error :=
  let '(body, bodyErr) := io.ReadAll rest in
  match bodyErr with
  | Some btext =>
      Error_value {| Error.StatusCode := 0;
                     Error.ErrorType := ErrTypeBody;
                     Error.Description := btext;
                     Error.Body := "" |}
  | None =>
      Error_value {| Error.StatusCode := 0;
                     Error.ErrorType := ErrTypeJSON;
                     Error.Description := text;
                     Error.Body := body |}
  end.

(** [func DecodeResponse(res *http.Response, out interface{}) error] of
    [request.go].  [out] is [None] for a nil target and [Some v] for a
    pointer to a variable holding [v]; the first component of the result
    is what the target holds afterwards. *)
Definition DecodeResponse (res : http.Response) (out : option T)
  : option T * option error :=
  if (400 <=? http.StatusCode res)%Z then
    let '(body, err) := io.ReadAll (http.Body res) in
    match err with
    | Some text => (out, Some (lib_error text))
    | None =>
        let '(_, e, derr) := json.Decode (bytes.NewReader body) Error.zero in
        match derr with
        | None =>
            (out, Some (Error_value
               {| Error.StatusCode := http.StatusCode res;
                  Error.ErrorType := Error.ErrorType e;
                  Error.Description := Error.Description e;
                  Error.Body := Error.Body e |}))
        | Some _ =>
            (out, Some (Error_value
               {| Error.StatusCode := http.StatusCode res;
                  Error.ErrorType := ErrTypeUnknown;
                  Error.Description := body;
                  Error.Body := Error.Body e |}))
        end
    end
  else
    match out with
    | None => (None, None)
    | Some v =>
        let '(rest, v', derr) := json.Decode (http.Body res) v in
        match derr with
        | None => (Some v', None)
        | Some text => (Some v', Some (decode_failure rest text))
        end
    end.

End Core.

(** The other copy of the core that the sources contain: it decodes the
    error schema straight from the stream, reads what is left of the
    stream afterwards, and has no guard for a nil target. *)
Module part_006.
Section Core.
Context `{ErrTypes} `{json.Scanner} `{json.Decoder Error.t}.
Context {T : Type} `{json.Decoder T}.

Definition DecodeResponse (res : http.Response) (out : option T)
  : option T * option error :=
  if (400 <=? http.StatusCode res)%Z then
    let '(rest, e, derr) := json.Decode (http.Body res) Error.zero in
    match derr with
    | None =>
        (out, Some (Error_value
           {| Error.StatusCode := http.StatusCode res;
              Error.ErrorType := Error.ErrorType e;
              Error.Description := Error.Description e;
              Error.Body := Error.Body e |}))
    | Some _ =>
        let '(body, err) := io.ReadAll rest in
        match err with
        | Some text => (out, Some (lib_error text))
        | None =>
            (out, Some (Error_value
               {| Error.StatusCode := http.StatusCode res;
                  Error.ErrorType := ErrTypeUnknown;
                  Error.Description := body;
                  Error.Body := Error.Body e |}))
        end
    end
  else
    match out with
    | None =>
        let '(rest, text) := json.Decode_nil (http.Body res) in
        (None, Some (decode_failure rest text))
    | Some v =>
        let '(rest, v', derr) := json.Decode (http.Body res) v in
        match derr with
        | None => (Some v', None)
        | Some text => (Some v', Some (decode_failure rest text))
        end
    end.

End Core.
End part_006.


(** ** The bearer-token runner *)

Record AccessTokenRunner := {
  atr_AccessToken : string;
  atr_Timeout : Z
}.

(** The URL that every runner hands to [http.NewRequest]:
    [r.Url+"?"+r.Params.Encode()]. *)
Definition request_target (r : Request) : string :=
  Url r +:+ "?" +:+ url.Encode (Params r).

(** The query string of a URL: what follows its first [?]. *)
Fixpoint RawQuery (u : string) : string :=
  match u with
  | EmptyString => EmptyString
  | String c u' => if Ascii.eqb c "?" then u' else RawQuery u'
  end.

(** The request that [AccessTokenRunner.Run] hands to [client.Do]: the
    one [http.NewRequest] built, with the bearer header when a token is
    held. *)
Definition AccessTokenRunner_request (runner : AccessTokenRunner) (r : Request)
  : http.Request :=
  let req := {| http.Method := Method r;
                http.URL := request_target r;
                http.Header := ∅;
                http.ReqBody := Body r |} in
  if strings.nonempty (atr_AccessToken runner)
  then {| http.Method := http.Method req;
          http.URL := http.URL req;
          http.Header := url.Add "Authorization"
                           ("Bearer " +:+ atr_AccessToken runner)
                           (http.Header req);
          http.ReqBody := http.ReqBody req |}
  else req.

(** [AccessTokenRunner.Run] *)
Definition AccessTokenRunner_Run `{http.Transport}
    (runner : AccessTokenRunner) : RequestRunner :=
  fun r =>
    match http.NewRequest_refuses (Method r) (request_target r) with
    | Some text => Err (lib_error text)
    | None => http.Client_Do (atr_Timeout runner) (AccessTokenRunner_request runner r)
    end.

(** ** Claim operations ([claims.go]) *)

Definition SearchClaimsUrl : string := YoutubePartnerV1 +:+ "/claimSearch".
Definition PatchClaimUrl : string := YoutubePartnerV1 +:+ "/claims".

Record PageInfo := {
  ResultsPerPage : Z;
  TotalResults : Z
}.

Record Claim := {
  claim_AssetId : string;
  claim_BlockOutsideOwnership : bool;
  claim_ContentType : string;
  claim_Id : string;
  claim_IsPartnerUploaded : bool;
  claim_Kind : string;
  claim_Status : ClaimStatus;
  claim_TimeCreated : string;
  claim_TimeStatusLastModified : string;
  claim_VideoId : string
}.

(** [var out Claim] *)
Definition Claim_zero : Claim :=
  {| claim_AssetId := ""; claim_BlockOutsideOwnership := false;
     claim_ContentType := ""; claim_Id := ""; claim_IsPartnerUploaded := false;
     claim_Kind := ""; claim_Status := ""; claim_TimeCreated := "";
     claim_TimeStatusLastModified := ""; claim_VideoId := "" |}.

Record SearchClaimsResponse := {
  scr_Items : list (option Claim);
  scr_NextPageToken : string;
  scr_PageInfo : option PageInfo
}.

Definition SearchClaimsResponse_zero : SearchClaimsResponse :=
  {| scr_Items := []; scr_NextPageToken := ""; scr_PageInfo := None |}.

(** [func (p *PatchClaimsParams) Url() string] *)
Definition PatchClaimsParams_Url (p : PatchClaimsParams) : string :=
  PatchClaimUrl +:+ "/" +:+ pcp_ClaimId p.

(** [func (p *PatchClaimsParams) Params() url.Values] *)
Definition PatchClaimsParams_Params (p : PatchClaimsParams) : url.Values :=
  let v : url.Values := ∅ in
  if strings.nonempty (pcp_OnBehalfOfContentOwner p)
  then url.Set_ "onBehalfOfContentOwner" (pcp_OnBehalfOfContentOwner p) v
  else v.

(** [func (p *PatchClaimsParams) Body() (io.Reader, error)].
    [json.Marshal] does not fail on a map of strings. *)
Definition PatchClaimsParams_Body (p : PatchClaimsParams)
  : result (gmap string string) :=
  let m : gmap string string := ∅ in
  let m := if strings.nonempty (pcp_Status p) && ClaimStatus_Valid (pcp_Status p)
           then <["status" := pcp_Status p]> m else m in
  if (size m =? 0)%nat then Err ErrInvalidPatchClaimsParams
  else Ok m.

Section Operations.
Context `{ErrTypes} `{json.Scanner} `{json.Decoder Error.t}.
Context `{json.Decoder SearchClaimsResponse} `{json.Decoder Claim}.

(** [func SearchClaims(runner RequestRunner, p *SearchClaimsParams)]: the
    response and the error that the call returns. *)
Definition SearchClaims (runner : RequestRunner) (p : SearchClaimsParams)
  : Net (option SearchClaimsResponse * option error) :=
  if negb (SearchClaimsParams_Validate p)
  then mret (None, Some ErrInvalidClaimSearchParams)
  else
    res ← Run runner {| Method := http.MethodGet;
                        Url := SearchClaimsUrl;
                        Params := SearchClaimsParams_Values p;
                        Body := None |};
    match res with
    | Err err => mret (None, Some err)
    | Ok res =>
        match DecodeResponse res (Some SearchClaimsResponse_zero) with
        | (_, Some err) => mret (None, Some err)
        | (out, None) => mret (out, None)
        end
    end.

(** [func PatchClaims(runner RequestRunner, p *PatchClaimsParams)]: the
    claim and the error that the call returns. *)
Definition PatchClaims (runner : RequestRunner) (p : PatchClaimsParams)
  : Net (option Claim * option error) :=
  if negb (PatchClaimsParams_Validate p)
  then mret (None, Some ErrInvalidPatchClaimsParams)
  else
    match PatchClaimsParams_Body p with
    | Err err => mret (None, Some err)
    | Ok body =>
        res ← Run runner {| Method := http.MethodPatch;
                            Url := PatchClaimsParams_Url p;
                            Params := PatchClaimsParams_Params p;
                            Body := Some body |};
        match res with
        | Err err => mret (None, Some err)
        | Ok res =>
            match DecodeResponse res (Some Claim_zero) with
            | (_, Some err) => mret (None, Some err)
            | (out, None) => mret (out, None)
            end
        end
    end.

End Operations.

(** ** Video listing ([video.go]) *)

Definition ListVideosUrl : string := BaseUrlV3 +:+ "/videos".

Definition ListVideoParamsPart := string.

Definition ListVideoParamsPartSnippet : ListVideoParamsPart := "snippet".

Record VideoSnippet := {
  vs_CategoryId : string;
  vs_ChannelId : string;
  vs_ChannelTitle : string;
  vs_Description : string;
  vs_PublishedAt : string;
  vs_Tags : list string;
  vs_Title : string
}.

Record Video := {
  video_Id : string;
  video_Snippet : option VideoSnippet
}.

Record ListVideosResponse := {
  lvr_Items : list (option Video);
  lvr_NextPageToken : string;
  lvr_PageInfo : option PageInfo
}.

Definition ListVideosResponse_zero : ListVideosResponse :=
  {| lvr_Items := []; lvr_NextPageToken := ""; lvr_PageInfo := None |}.

Record ListVideoParams := {
  Parts : list ListVideoParamsPart;
  Ids : list string;
  PageToken : string
}.

(** [func (o *ListVideoParams) convertParts() []string] *)
Definition convertParts (o : ListVideoParams) : list string :=
  if (length (Parts o) =? 0)%nat then []
  else foldl (fun p prompt => p ++ [prompt]) [] (Parts o).

(** [func (o *ListVideoParams) Values() url.Values] *)
Definition ListVideoParams_Values (o : ListVideoParams) : url.Values :=
  let vals : url.Values := ∅ in
  let vals := url.Add "part" (strings.Join (convertParts o) ",") vals in
  if strings.nonempty (PageToken o)
  then url.Add "pageToken" (PageToken o) vals
  else if (0 <? length (Ids o))%nat
  then url.Add "id" (strings.Join (Ids o) ",") vals
  else vals.

Section Videos.
Context `{ErrTypes} `{json.Scanner} `{json.Decoder Error.t}.
Context `{json.Decoder ListVideosResponse}.

(** [func ListVideos(runner RequestRunner, p *ListVideoParams)] *)
Definition ListVideos (runner : RequestRunner) (p : ListVideoParams)
  : Net (option ListVideosResponse * option error) :=
  res ← Run runner {| Method := http.MethodGet;
                      Url := ListVideosUrl;
                      Params := ListVideoParams_Values p;
                      Body := None |};
  match res with
  | Err err => mret (None, Some err)
  | Ok res =>
      match DecodeResponse res (Some ListVideosResponse_zero) with
      | (_, Some err) => mret (None, Some err)
      | (out, None) => mret (out, None)
      end
  end.

End Videos.

(** ** Whitelists *)

Definition WhitelistUrl : string := YoutubePartnerV1 +:+ "/whitelists".

Record Whitelist := {
  wl_Id : string;
  wl_Title : string
}.

Definition Whitelist_zero : Whitelist := {| wl_Id := ""; wl_Title := "" |}.

(** [GetWhitelistParams], [InsertWhitelistParams] and
    [DeleteWhitelistParams] are three structs with the same two fields. *)
Record GetWhitelistParams := {
  gwp_Id : string;
  gwp_OnBehalfOfContentOwner : string
}.

Record InsertWhitelistParams := {
  iwp_Id : string;
  iwp_OnBehalfOfContentOwner : string
}.

Record DeleteWhitelistParams := {
  dwp_Id : string;
  dwp_OnBehalfOfContentOwner : string
}.

(** [func (p *GetWhitelistParams) Values() url.Values] *)
Definition GetWhitelistParams_Values (p : GetWhitelistParams) : url.Values :=
  url.Add "onBehalfOfContentOwner" (gwp_OnBehalfOfContentOwner p) ∅.

(** [func (p *InsertWhitelistParams) Values() url.Values] *)
Definition InsertWhitelistParams_Values (p : InsertWhitelistParams) : url.Values :=
  url.Add "onBehalfOfContentOwner" (iwp_OnBehalfOfContentOwner p) ∅.

(** [func (p *DeleteWhitelistParams) Values() url.Values] *)
Definition DeleteWhitelistParams_Values (p : DeleteWhitelistParams) : url.Values :=
  url.Add "onBehalfOfContentOwner" (dwp_OnBehalfOfContentOwner p) ∅.

(** [func (p *InsertWhitelistParams) Body() (io.Reader, error)] *)
Definition InsertWhitelistParams_Body (p : InsertWhitelistParams)
  : result (gmap string string) :=
  let m : gmap string string := ∅ in
  let m := <["kind" := "youtubePartner#whitelist"]> m in
  let m := <["id" := iwp_Id p]> m in
  Ok m.

(** [func convertWhitelistError(err error) error].  Its type assertion
    asks for a pointer to [Error]: it succeeds on that dynamic type only. *)
Definition convertWhitelistError (err : option error) : option error :=
  match err with
  | None => None
  | Some (Error_pointer v) =>
      if (Error.StatusCode v =? 404)%Z then Some ErrNotWhitelisted
      else if (Error.StatusCode v =? 403)%Z
              && strings.Contains (Error.Body v) "quotaExceeded"
      then Some ErrRateLimited
      else err
  | Some _ => err
  end.

Section Whitelists.
Context `{ErrTypes} `{json.Scanner} `{json.Decoder Error.t}.
Context `{json.Decoder Whitelist}.

(** [func GetWhitelist(runner RequestRunner, p *GetWhitelistParams)] *)
Definition GetWhitelist (runner : RequestRunner) (p : GetWhitelistParams)
  : Net (option Whitelist * option error) :=
  res ← Run runner {| Method := http.MethodGet;
                      Url := WhitelistUrl +:+ "/" +:+ gwp_Id p;
                      Params := GetWhitelistParams_Values p;
                      Body := None |};
  match res with
  | Err err => mret (None, Some err)
  | Ok res =>
      match DecodeResponse res (Some Whitelist_zero) with
      | (_, Some err) => mret (None, convertWhitelistError (Some err))
      | (out, None) => mret (out, None)
      end
  end.

(** [func InsertWhitelist(runner RequestRunner, p *InsertWhitelistParams)] *)
Definition InsertWhitelist (runner : RequestRunner) (p : InsertWhitelistParams)
  : Net (option Whitelist * option error) :=
  match InsertWhitelistParams_Body p with
  | Err err => mret (None, Some err)
  | Ok body =>
      res ← Run runner {| Method := http.MethodPost;
                          Url := WhitelistUrl;
                          Params := InsertWhitelistParams_Values p;
                          Body := Some body |};
      match res with
      | Err err => mret (None, Some err)
      | Ok res =>
          match DecodeResponse res (Some Whitelist_zero) with
          | (_, Some err) => mret (None, convertWhitelistError (Some err))
          | (out, None) => mret (out, None)
          end
      end
  end.

(** [func DeleteWhitelist(runner RequestRunner, p *DeleteWhitelistParams) error] *)
Definition DeleteWhitelist (runner : RequestRunner) (p : DeleteWhitelistParams)
  : Net (option error) :=
  res ← Run runner {| Method := http.MethodDelete;
                      Url := WhitelistUrl +:+ "/" +:+ dwp_Id p;
                      Params := DeleteWhitelistParams_Values p;
                      Body := None |};
  match res with
  | Err err => mret (Some err)
  | Ok res =>
      (* the target is nil: the type of the target plays no part *)
      mret (convertWhitelistError (snd (DecodeResponse (T := Whitelist) res None)))
  end.

End Whitelists.

(** ** The other runners *)

Record UnauthenticatedRunner := {
  ur_Timeout : Z
}.

(** The request that [UnauthenticatedRunner.Run] and
    [CustomClientRunner.Run] hand to the client: the one
    [http.NewRequest] built, as it is. *)
Definition plain_request (r : Request) : http.Request :=
  {| http.Method := Method r;
     http.URL := request_target r;
     http.Header := ∅;
     http.ReqBody := Body r |}.

(** [UnauthenticatedRunner.Run] *)
Definition UnauthenticatedRunner_Run `{http.Transport}
    (u : UnauthenticatedRunner) : RequestRunner :=
  fun r =>
    match http.NewRequest_refuses (Method r) (request_target r) with
    | Some text => Err (lib_error text)
    | None => http.Client_Do (ur_Timeout u) (plain_request r)
    end.

(** [CustomClientRunner]: [ccr_Client] is what [runner.Client.Do]
    answers. *)
Record CustomClientRunner := {
  ccr_Client : http.Request -> result http.Response
}.

(** [CustomClientRunner.Run] *)
Definition CustomClientRunner_Run `{http.Transport}
    (runner : CustomClientRunner) : RequestRunner :=
  fun r =>
    match http.NewRequest_refuses (Method r) (request_target r) with
    | Some text => Err (lib_error text)
    | None => ccr_Client runner (plain_request r)
    end.

(** ** Token exchange and user info *)

Definition ExchangeOAuthTokenUrl : string := "https://oauth2.googleapis.com/token".
Definition UserInfoUrl : string := "https://www.googleapis.com/oauth2/v2/userinfo".

Record Token := {
  tok_AccessToken : string;
  tok_ExpiresInSecs : Z;
  tok_RefreshToken : string;
  tok_Scope : string;
  tok_TokenType : string
}.

(** [var t Token] *)
Definition Token_zero : Token :=
  {| tok_AccessToken := ""; tok_ExpiresInSecs := 0; tok_RefreshToken := "";
     tok_Scope := ""; tok_TokenType := "" |}.

Record UserInfo := {
  ui_Picture : string;
  ui_VerifiedEmail : bool;
  ui_Id : string;
  ui_Hd : string;
  ui_Email : string;
  ui_Name : string;
  ui_GivenName : string
}.

(** [var u UserInfo] *)
Definition UserInfo_zero : UserInfo :=
  {| ui_Picture := ""; ui_VerifiedEmail := false; ui_Id := ""; ui_Hd := "";
     ui_Email := ""; ui_Name := ""; ui_GivenName := "" |}.

(** The query values that [ExchangeAuthToken] builds. *)
Definition ExchangeAuthToken_vals (clientId clientSecret code redirect : string)
  : url.Values :=
  let vals : url.Values := ∅ in
  let vals := url.Add "client_id" clientId vals in
  let vals := url.Add "client_secret" clientSecret vals in
  let vals := url.Add "grant_type" "authorization_code" vals in
  let vals := url.Add "code" code vals in
  let vals := url.Add "redirect_uri" redirect vals in
  vals.

(** The query values that [ExchangeJwtToken] builds. *)
Definition ExchangeJwtToken_vals (jwt : string) : url.Values :=
  let vals : url.Values := ∅ in
  let vals := url.Add "grant_type" "urn:ietf:params:oauth:grant-type:jwt-bearer" vals in
  let vals := url.Add "assertion" jwt vals in
  vals.

Section Tokens.
Context `{ErrTypes} `{json.Scanner} `{json.Decoder Error.t}.
Context `{json.Decoder Token} `{json.Decoder UserInfo} `{http.Transport}.

(** [func ExchangeAuthToken(clientId, clientSecret, code, redirect string,
    timeout time.Duration)] *)
Definition ExchangeAuthToken (clientId clientSecret code redirect : string)
    (timeout : Z) : Net (option Token * option error) :=
  let vals := ExchangeAuthToken_vals clientId clientSecret code redirect in
  let runner := {| ur_Timeout := timeout |} in
  res ← Run (UnauthenticatedRunner_Run runner)
            {| Method := http.MethodPost;
               Url := ExchangeOAuthTokenUrl;
               Params := vals;
               Body := None |};
  match res with
  | Err err => mret (None, Some err)
  | Ok res =>
      match DecodeResponse res (Some Token_zero) with
      | (_, Some err) => mret (None, Some err)
      | (out, None) => mret (out, None)
      end
  end.

(** [func ExchangeJwtToken(jwt string, timeout time.Duration)] *)
Definition ExchangeJwtToken (jwt : string) (timeout : Z)
  : Net (option Token * option error) :=
  let vals := ExchangeJwtToken_vals jwt in
  let runner := {| ur_Timeout := timeout |} in
  res ← Run (UnauthenticatedRunner_Run runner)
            {| Method := http.MethodPost;
               Url := ExchangeOAuthTokenUrl;
               Params := vals;
               Body := None |};
  match res with
  | Err err => mret (None, Some err)
  | Ok res =>
      match DecodeResponse res (Some Token_zero) with
      | (_, Some err) => mret (None, Some err)
      | (out, None) => mret (out, None)
      end
  end.

(** [func GetUserInfo(token string, timeout time.Duration)].  The request
    leaves [Params] nil: a nil [url.Values] reads as the empty map. *)
Definition GetUserInfo (token : string) (timeout : Z)
  : Net (option UserInfo * option error) :=
  let runner := {| atr_AccessToken := token; atr_Timeout := timeout |} in
  res ← Run (AccessTokenRunner_Run runner)
            {| Method := http.MethodGet;
               Url := UserInfoUrl;
               Params := ∅;
               Body := None |};
  match res with
  | Err err => mret (None, Some err)
  | Ok res =>
      match DecodeResponse res (Some UserInfo_zero) with
      | (_, Some err) => mret (None, Some err)
      | (out, None) => mret (out, None)
      end
  end.

End Tokens.

(** ** JSON text

    The text of the flat objects that serve as examples. *)

Definition quote : ascii := ascii_of_nat 34.

Definition quoted (s : string) : string := String quote (s +:+ String quote "").

(** The text of an object whose members are strings without escapes. *)
Definition flat_object (ms : list (string * string)) : string :=
  "{" +:+ strings.Join (map (λ m, quoted m.1 +:+ ":" +:+ quoted m.2) ms) ","
      +:+ "}".

(** ** A small decoder, to run the model on examples

    The properties below hold for every decoder.  To evaluate the model on
    concrete responses, this module supplies one: it reads a flat JSON
    object whose members are strings without escapes
    ([{"error":"not_found"}]), as the error documents of the API are, and
    consumes the whole stream in doing so, as a buffering decoder does on a
    short body. *)

Module Sample.

Definition errtypes : ErrTypes :=
  {| ErrTypeUnknown := "unknown"; ErrTypeBody := "body"; ErrTypeJSON := "json" |}.

(** A string literal: the bytes up to the closing quote, and what follows
    it. *)
Fixpoint string_lit (s : string) : option (string * string) :=
  match s with
  | EmptyString => None
  | String c s' =>
      if Ascii.eqb c quote then Some (EmptyString, s')
      else match string_lit s' with
           | Some (lit, rest) => Some (String c lit, rest)
           | None => None
           end
  end.

Definition expect (c : ascii) (s : string) : option string :=
  match s with
  | String c' s' => if Ascii.eqb c' c then Some s' else None
  | EmptyString => None
  end.

(** One member ["key":"value"]. *)
Definition member (s : string) : option (string * string * string) :=
  s ← expect quote s;
  '(key, s) ← string_lit s;
  s ← expect ":" s;
  s ← expect quote s;
  '(value, s) ← string_lit s;
  Some (key, value, s).

(** The members of an object, after its opening brace. *)
Fixpoint members (fuel : nat) (s : string) : option (list (string * string)) :=
  match fuel with
  | O => None
  | S fuel =>
      '(key, value, s) ← member s;
      match s with
      | String c s' =>
          if Ascii.eqb c "}" then Some [(key, value)]
          else if Ascii.eqb c "," then
            ms ← members fuel s'; Some ((key, value) :: ms)
          else None
      | EmptyString => None
      end
  end.

Definition object (s : string) : option (list (string * string)) :=
  s' ← expect "{" s;
  match s' with
  | String c _ => if Ascii.eqb c "}" then Some [] else members (String.length s) s'
  | EmptyString => None
  end.

Definition drained (r : io.Reader) : io.Reader :=
  {| io.pending := ""; io.fault := io.fault r |}.

Definition failure (r : io.Reader) : string :=
  if strings.nonempty (io.pending r) then "invalid character"
  else default "EOF" (io.fault r).

Definition scanner : json.Scanner :=
  fun r => (drained r,
            match object (io.pending r) with
            | Some _ => None
            | None => Some (failure r)
            end).

(** Decode into a struct, given how a member is stored into it. *)
Definition decoder {T} (store : T -> string * string -> T) : json.Decoder T :=
  fun r v =>
    match object (io.pending r) with
    | Some ms => (drained r, foldl store v ms, None)
    | None => (drained r, v, Some (failure r))
    end.

Definition store_Error (e : Error.t) (m : string * string) : Error.t :=
  if String.eqb (fst m) "error" then
    {| Error.StatusCode := Error.StatusCode e; Error.ErrorType := snd m;
       Error.Description := Error.Description e; Error.Body := Error.Body e |}
  else if String.eqb (fst m) "error_description" then
    {| Error.StatusCode := Error.StatusCode e; Error.ErrorType := Error.ErrorType e;
       Error.Description := snd m; Error.Body := Error.Body e |}
  else e.

Definition store_Whitelist (w : Whitelist) (m : string * string) : Whitelist :=
  if String.eqb (fst m) "id" then {| wl_Id := snd m; wl_Title := wl_Title w |}
  else if String.eqb (fst m) "title" then {| wl_Id := wl_Id w; wl_Title := snd m |}
  else w.

Definition decoder_Error : json.Decoder Error.t := decoder store_Error.
Definition decoder_Whitelist : json.Decoder Whitelist := decoder store_Whitelist.

Definition store_Claim (c : Claim) (m : string * string) : Claim :=
  if String.eqb (fst m) "id" then
    {| claim_AssetId := claim_AssetId c;
       claim_BlockOutsideOwnership := claim_BlockOutsideOwnership c;
       claim_ContentType := claim_ContentType c; claim_Id := snd m;
       claim_IsPartnerUploaded := claim_IsPartnerUploaded c;
       claim_Kind := claim_Kind c; claim_Status := claim_Status c;
       claim_TimeCreated := claim_TimeCreated c;
       claim_TimeStatusLastModified := claim_TimeStatusLastModified c;
       claim_VideoId := claim_VideoId c |}
  else if String.eqb (fst m) "status" then
    {| claim_AssetId := claim_AssetId c;
       claim_BlockOutsideOwnership := claim_BlockOutsideOwnership c;
       claim_ContentType := claim_ContentType c; claim_Id := claim_Id c;
       claim_IsPartnerUploaded := claim_IsPartnerUploaded c;
       claim_Kind := claim_Kind c; claim_Status := snd m;
       claim_TimeCreated := claim_TimeCreated c;
       claim_TimeStatusLastModified := claim_TimeStatusLastModified c;
       claim_VideoId := claim_VideoId c |}
  else c.

Definition decoder_Claim : json.Decoder Claim := decoder store_Claim.

Definition store_SearchClaimsResponse (r : SearchClaimsResponse) (m : string * string)
  : SearchClaimsResponse :=
  if String.eqb (fst m) "nextPageToken" then
    {| scr_Items := scr_Items r; scr_NextPageToken := snd m;
       scr_PageInfo := scr_PageInfo r |}
  else r.

Definition decoder_SearchClaimsResponse : json.Decoder SearchClaimsResponse :=
  decoder store_SearchClaimsResponse.

(** A transport that accepts every request and answers it with [res]. *)
Definition transport (res : http.Response) : http.Transport :=
  {| http.NewRequest_refuses := fun _ _ => None;
     http.Client_Do := fun _ _ => Ok res |}.

End Sample.

(** ** Vocabulary of the statements *)

(** How many of the four search filters are set. *)
Definition filters_set (p : SearchClaimsParams) : nat :=
  (if strings.nonempty (scp_AssetId p) then 1 else 0)
  + (if strings.nonempty (scp_Q p) then 1 else 0)
  + (if strings.nonempty (scp_ReferenceId p) then 1 else 0)
  + (if (0 <? length (scp_VideoIds p))%nat then 1 else 0).

(** A search by status alone. *)
Definition status_only (status : ClaimStatus) : SearchClaimsParams :=
  {| scp_AssetId := ""; scp_Q := ""; scp_ReferenceId := ""; scp_VideoIds := [];
     scp_PageToken := ""; scp_Status := status;
     scp_IncludeThirdPartyClaims := false; scp_OnBehalfOfContentOwner := "";
     scp_Sort := ""; scp_StatusModifiedAfter := "" |}.

(** A search by asset and status. *)
Definition by_asset (asset : string) (status : ClaimStatus) : SearchClaimsParams :=
  {| scp_AssetId := asset; scp_Q := ""; scp_ReferenceId := ""; scp_VideoIds := [];
     scp_PageToken := ""; scp_Status := status;
     scp_IncludeThirdPartyClaims := false; scp_OnBehalfOfContentOwner := "";
     scp_Sort := ""; scp_StatusModifiedAfter := "" |}.

(** A search by status alone, restricted by a modification date. *)
Definition modified_after (status : ClaimStatus) (date : string) : SearchClaimsParams :=
  {| scp_AssetId := ""; scp_Q := ""; scp_ReferenceId := ""; scp_VideoIds := [];
     scp_PageToken := ""; scp_Status := status;
     scp_IncludeThirdPartyClaims := false; scp_OnBehalfOfContentOwner := "";
     scp_Sort := ""; scp_StatusModifiedAfter := date |}.

(** A response whose body is held in memory: reading it cannot fail. *)
Definition response (status : Z) (body : string) : http.Response :=
  {| http.StatusCode := status; http.Body := bytes.NewReader body |}.

(** A runner that answers every request with the same response. *)
Definition constant_runner (res : http.Response) : RequestRunner :=
  fun _ => Ok res.

(** The error document [{"error":"not_found"}]. *)
Definition not_found_body : string := flat_object [("error", "not_found")].

(** An error document of the API that reports an exhausted quota. *)
Definition quota_body : string := flat_object [("error", "quotaExceeded")].

(** [ListVideoParams{Parts: [snippet], Ids: [abc123]}] *)
Definition snippet_of_abc123 : ListVideoParams :=
  {| Parts := [ListVideoParamsPartSnippet]; Ids := ["abc123"]; PageToken := "" |}.

(** The two cases in which both versions of [DecodeResponse] are bound to
    agree: a success status with a target to decode into, and an error
    status whose body is read without failure and parses as the error
    schema. *)
Definition agreement_case `{json.Decoder Error.t} {T}
    (res : http.Response) (out : option T) : Prop :=
  ((http.StatusCode res < 400)%Z ∧ out ≠ None)
  ∨ ((400 ≤ http.StatusCode res)%Z
     ∧ io.fault (http.Body res) = None
     ∧ (json.Decode (http.Body res) Error.zero).2 = None).

(** The shapes of error that [DecodeResponse] can return: nil, a library
    error, or an [Error] held by value (never a pointer to an [Error],
    never a sentinel). *)
Inductive decode_error : option error → Prop :=
| decode_nil : decode_error None
| decode_lib text : decode_error (Some (lib_error text))
| decode_value e : decode_error (Some (Error_value e)).

(** A call returns a value or an error, never both and never neither. *)
Definition value_xor_error {A} (r : option A * option error) : Prop :=
  (∃ v, r = (Some v, None)) ∨ (∃ e, r = (None, Some e)).

(** A runner that fails on every request with the same error. *)
Definition failing_runner (err : error) : RequestRunner :=
  fun _ => Err err.

(** * Properties *)

(** ** Query values *)

Lemma lookup_Add_eq (k v : string) (m : url.Values) :
  url.Add k v m !! k = Some (default [] (m !! k) ++ [v]).
Proof. unfold url.Add. apply lookup_insert_eq. Qed.

Lemma lookup_Add_ne (k k' v : string) (m : url.Values) :
  k ≠ k' → url.Add k v m !! k' = m !! k'.
Proof. intros Hne. unfold url.Add. by apply lookup_insert_ne. Qed.

Lemma lookup_if_Add_ne (b : bool) (k k' v : string) (m : url.Values) :
  k ≠ k' → (if b then url.Add k v m else m) !! k' = m !! k'.
Proof. intros Hne. destruct b; [by apply lookup_Add_ne | done]. Qed.

Lemma nonempty_true (s : string) : strings.nonempty s = true ↔ s ≠ "".
Proof.
  unfold strings.nonempty. rewrite negb_true_iff.
  split.
  - intros Hb ->. by rewrite String.eqb_refl in Hb.
  - intros Hne. by apply String.eqb_neq.
Qed.

Lemma nonempty_false (s : string) : strings.nonempty s = false ↔ s = "".
Proof.
  unfold strings.nonempty. rewrite negb_false_iff. apply String.eqb_eq.
Qed.

(** ** Claim search: [Validate] *)

Lemma Valid_nonempty (s : ClaimStatus) : ClaimStatus_Valid s = true → s ≠ "".
Proof. intros Hv ->. discriminate Hv. Qed.

(** What [Validate] accepts, exactly: a recognised status and nothing in
    the four filters (the joined video IDs being what it looks at). *)
Lemma Validate_true_iff (p : SearchClaimsParams) :
  SearchClaimsParams_Validate p = true ↔
  scp_AssetId p = "" ∧ scp_Q p = "" ∧ scp_ReferenceId p = ""
  ∧ strings.Join (scp_VideoIds p) "," = ""
  ∧ ClaimStatus_Valid (scp_Status p) = true.
Proof.
  unfold SearchClaimsParams_Validate, count_required.
  split.
  - intros Hval.
    destruct (strings.nonempty (scp_AssetId p)) eqn:Ha,
             (strings.nonempty (scp_Q p)) eqn:Hq,
             (strings.nonempty (scp_ReferenceId p)) eqn:Hr,
             (strings.nonempty (strings.Join (scp_VideoIds p) ",")) eqn:Hv,
             (strings.nonempty (scp_Status p)) eqn:Hs;
      simpl in Hval; try discriminate Hval;
      try (apply nonempty_false in Hs; rewrite Hs in Hval; discriminate Hval).
    apply nonempty_false in Ha, Hq, Hr, Hv.
    repeat split; try done.
    destruct (scp_Status p =? "")%string; [discriminate Hval |].
    destruct (ClaimStatus_Valid (scp_Status p)); [done | discriminate Hval].
  - intros (Ha & Hq & Hr & Hv & Hvalid).
    pose proof (Valid_nonempty _ Hvalid) as Hs.
    pose proof (proj2 (nonempty_true _) Hs) as Hn.
    apply String.eqb_neq in Hs.
    rewrite Ha, Hq, Hr, Hv, Hvalid, Hn, Hs. reflexivity.
Qed.

(** C1, as stated, fails: a search by status alone sets none of the four
    filters, and [Validate] accepts it. *)
Lemma C1_counterexample :
  filters_set (status_only ClaimStatusActive) = 0
  ∧ SearchClaimsParams_Validate (status_only ClaimStatusActive) = true.
Proof. split; reflexivity. Qed.

(** C1, amended: [Validate] returns false when more than one of the four
    filters is set, and when the status is empty or is not one of the eight
    recognised values. *)
Theorem C1_Validate_rejects (p : SearchClaimsParams) :
  (1 < filters_set p
   ∨ scp_Status p = ""
   ∨ ClaimStatus_Valid (scp_Status p) = false) →
  SearchClaimsParams_Validate p = false.
Proof.
  intros Hcases.
  destruct (SearchClaimsParams_Validate p) eqn:Hval; [exfalso | done].
  apply Validate_true_iff in Hval as (Ha & Hq & Hr & Hv & Hvalid).
  destruct Hcases as [Hmany | [Hempty | Hinvalid]].
  - unfold filters_set in Hmany. rewrite Ha, Hq, Hr in Hmany. simpl in Hmany.
    destruct (0 <? length (scp_VideoIds p))%nat; simpl in Hmany; lia.
  - by apply Valid_nonempty in Hvalid.
  - congruence.
Qed.

Lemma C1_Validate_rejects_witness :
  SearchClaimsParams_Validate
    {| scp_AssetId := "a1"; scp_Q := "song"; scp_ReferenceId := "";
       scp_VideoIds := []; scp_PageToken := ""; scp_Status := ClaimStatusActive;
       scp_IncludeThirdPartyClaims := false; scp_OnBehalfOfContentOwner := "";
       scp_Sort := ""; scp_StatusModifiedAfter := "" |} = false.
Proof. apply C1_Validate_rejects. left. vm_compute. lia. Defined.

(** C2 fails on the code: with one filter set and a recognised status,
    the status itself is counted as a second entry and [Validate] returns
    false. *)
Theorem C2_Validate_rejects_one_filter :
  filters_set (by_asset "a1" ClaimStatusActive) = 1
  ∧ ClaimStatus_Valid ClaimStatusActive = true
  ∧ SearchClaimsParams_Validate (by_asset "a1" ClaimStatusActive) = false.
Proof. repeat split; reflexivity. Qed.

(** No search by asset, query or reference is ever accepted, whatever the
    status: the filters are unusable through [Validate]. *)
Lemma Validate_rejects_every_filter (p : SearchClaimsParams) :
  scp_AssetId p ≠ "" ∨ scp_Q p ≠ "" ∨ scp_ReferenceId p ≠ "" →
  SearchClaimsParams_Validate p = false.
Proof.
  intros Hset.
  destruct (SearchClaimsParams_Validate p) eqn:Hval; [exfalso | done].
  apply Validate_true_iff in Hval as (Ha & Hq & Hr & _).
  destruct Hset as [Hset | [Hset | Hset]]; congruence.
Qed.

(** ** Claim search: the date filter *)

(** [Values] attaches the date exactly when it is non-empty and contains
    a match of the pattern. *)
Lemma Values_statusModifiedAfter (p : SearchClaimsParams) :
  SearchClaimsParams_Values p !! "statusModifiedAfter" =
  if strings.nonempty (scp_StatusModifiedAfter p)
     && regexp.MatchString DateRegexp (scp_StatusModifiedAfter p)
  then Some [scp_StatusModifiedAfter p]
  else None.
Proof.
  unfold SearchClaimsParams_Values. cbv zeta.
  assert (Hbelow : ∀ m : url.Values,
    m !! "statusModifiedAfter" = None →
    (if strings.nonempty (scp_StatusModifiedAfter p)
        && regexp.MatchString DateRegexp (scp_StatusModifiedAfter p)
     then url.Add "statusModifiedAfter" (scp_StatusModifiedAfter p) m
     else m) !! "statusModifiedAfter" =
    if strings.nonempty (scp_StatusModifiedAfter p)
       && regexp.MatchString DateRegexp (scp_StatusModifiedAfter p)
    then Some [scp_StatusModifiedAfter p] else None).
  { intros m Hm. case_match; [| done]. by rewrite lookup_Add_eq, Hm. }
  apply Hbelow.
  destruct (scp_Sort p =? ClaimSortDate)%string;
    [| destruct (scp_Sort p =? ClaimSortViewCount)%string];
    destruct (scp_IncludeThirdPartyClaims p);
    rewrite ?(lookup_Add_ne "sort") by done;
    rewrite !lookup_if_Add_ne by done;
    rewrite lookup_Add_ne by done;
    rewrite !lookup_if_Add_ne by done;
    apply lookup_empty.
Qed.

(** A match of the whole string is in particular a match somewhere in
    it: well-formed dates are attached. *)
Lemma FullMatch_match_here (pat : list regexp.atom) (s : string) :
  regexp.FullMatch pat s = true → regexp.match_here pat s = true.
Proof.
  revert s. induction pat as [| a pat IH]; intros s Hfull.
  - by destruct s.
  - destruct s as [| c s]; [done |]. simpl in *.
    apply andb_true_iff in Hfull as [Ha Hrest].
    rewrite Ha. simpl. by apply IH.
Qed.

Lemma FullMatch_MatchString (pat : list regexp.atom) (s : string) :
  regexp.FullMatch pat s = true → regexp.MatchString pat s = true.
Proof.
  intros Hfull. apply FullMatch_match_here in Hfull.
  destruct s; simpl; rewrite Hfull; done.
Qed.

(** C4 fails on the code: the pattern is not anchored, so a string that
    merely contains a date is attached.  Here the parameters are valid, the
    date has one digit too many, and the key is emitted all the same. *)
Theorem C4_date_not_anchored :
  SearchClaimsParams_Validate (modified_after ClaimStatusActive "2016-06-300") = true
  ∧ regexp.FullMatch DateRegexp "2016-06-300" = false
  ∧ SearchClaimsParams_Values (modified_after ClaimStatusActive "2016-06-300")
      !! "statusModifiedAfter" = Some ["2016-06-300"].
Proof.
  split; [reflexivity |]. split; [reflexivity |].
  rewrite Values_statusModifiedAfter. reflexivity.
Qed.

(** ** Claim patch *)

Section PatchClaims_properties.
Context `{ErrTypes} `{json.Scanner} `{json.Decoder Error.t}.
Context `{json.Decoder SearchClaimsResponse} `{json.Decoder Claim}.

(** C5: with an empty or unrecognised status, [Body] returns the
    patch-params error, and [PatchClaims] returns that error and leaves the
    log of requests as it found it: the runner is not invoked. *)
Theorem C5_patch_bad_status (runner : RequestRunner) (p : PatchClaimsParams)
    (log : list Request) :
  pcp_Status p = "" ∨ ClaimStatus_Valid (pcp_Status p) = false →
  PatchClaimsParams_Body p = Err ErrInvalidPatchClaimsParams
  ∧ PatchClaims runner p log = ((None, Some ErrInvalidPatchClaimsParams), log).
Proof.
  intros Hbad.
  assert (Hguard : strings.nonempty (pcp_Status p)
                   && ClaimStatus_Valid (pcp_Status p) = false).
  { destruct Hbad as [-> | ->]; [done | apply andb_false_r]. }
  split.
  - unfold PatchClaimsParams_Body. by rewrite Hguard.
  - unfold PatchClaims, PatchClaimsParams_Validate.
    rewrite <- andb_assoc, Hguard, andb_false_r. reflexivity.
Qed.

End PatchClaims_properties.

(** ** Video listing *)

Lemma foldl_snoc {A} (acc l : list A) :
  foldl (λ p x, p ++ [x]) acc l = acc ++ l.
Proof.
  revert acc. induction l as [| x l IH]; intros acc; simpl.
  - by rewrite app_nil_r.
  - rewrite IH. by rewrite <- app_assoc.
Qed.

Lemma convertParts_Parts (o : ListVideoParams) : convertParts o = Parts o.
Proof.
  unfold convertParts. destruct (Parts o) as [| x l]; [done |].
  simpl. apply (foldl_snoc [x] l).
Qed.

(** C6: [Values] always holds the [part] key, with the joined parts (the
    empty string when there are none), and holds no [id] key once a page
    token is given, whatever the IDs. *)
Theorem C6_ListVideoParams_Values (o : ListVideoParams) :
  ListVideoParams_Values o !! "part" = Some [strings.Join (Parts o) ","]
  ∧ (Parts o = [] → ListVideoParams_Values o !! "part" = Some [""])
  ∧ (PageToken o ≠ "" → ListVideoParams_Values o !! "id" = None).
Proof.
  assert (Hpart : ListVideoParams_Values o !! "part"
                  = Some [strings.Join (Parts o) ","]).
  { unfold ListVideoParams_Values. cbv zeta. rewrite convertParts_Parts.
    destruct (strings.nonempty (PageToken o));
      [| destruct (0 <? length (Ids o))%nat];
      rewrite ?lookup_Add_ne by done; by rewrite lookup_Add_eq. }
  split; [exact Hpart |]. split.
  - intros Hnone. by rewrite Hpart, Hnone.
  - intros Htoken. apply nonempty_true in Htoken.
    unfold ListVideoParams_Values. cbv zeta. rewrite Htoken.
    rewrite !lookup_Add_ne by done. apply lookup_empty.
Qed.

Lemma C6_ListVideoParams_Values_witness :
  ListVideoParams_Values {| Parts := []; Ids := ["abc123"]; PageToken := "CAUQAA" |}
    !! "part" = Some [""]
  ∧ ListVideoParams_Values {| Parts := []; Ids := ["abc123"]; PageToken := "CAUQAA" |}
    !! "id" = None.
Proof.
  pose proof (C6_ListVideoParams_Values
                {| Parts := []; Ids := ["abc123"]; PageToken := "CAUQAA" |})
    as (_ & Hpart & Hid).
  split; [by apply Hpart | by apply Hid].
Defined.

(** ** [DecodeResponse] *)

Section DecodeResponse_properties.
Context `{ErrTypes} `{json.Scanner} `{json.Decoder Error.t}.
Context {T : Type} `{json.Decoder T}.

Lemma decode_failure_shape (rest : io.Reader) (text : string) :
  ∃ e, decode_failure rest text = Error_value e.
Proof.
  unfold decode_failure. destruct (io.ReadAll rest) as [body [btext |]]; eauto.
Qed.

Lemma DecodeResponse_error_shape (res : http.Response) (out : option T) :
  decode_error (DecodeResponse res out).2.
Proof.
  unfold DecodeResponse.
  destruct (400 <=? http.StatusCode res)%Z.
  - destruct (io.ReadAll (http.Body res)) as [body [text |]]; simpl.
    + constructor.
    + destruct (json.Decode (bytes.NewReader body) Error.zero) as [[rest e] [text |]];
        simpl; constructor.
  - destruct out as [v |]; simpl; [| constructor].
    destruct (json.Decode (http.Body res) v) as [[rest v'] [text |]]; simpl.
    + destruct (decode_failure_shape rest text) as [e ->]. constructor.
    + constructor.
Qed.

Lemma convertWhitelistError_decode_error (err : option error) :
  decode_error err → convertWhitelistError err = err.
Proof. by intros []. Qed.

(** On a pointer to an [Error] the remap does what its comment says: the
    sentinels are within its reach, not within that of its callers. *)
Lemma convertWhitelistError_pointer (e : Error.t) :
  (Error.StatusCode e = 404%Z →
   convertWhitelistError (Some (Error_pointer e)) = Some ErrNotWhitelisted)
  ∧ (Error.StatusCode e = 403%Z →
     strings.Contains (Error.Body e) "quotaExceeded" = true →
     convertWhitelistError (Some (Error_pointer e)) = Some ErrRateLimited).
Proof.
  split.
  - intros Hcode. simpl. by rewrite Hcode.
  - intros Hcode Hquota. simpl. by rewrite Hcode, Hquota.
Qed.

(** When the status is an error status, the body is read without failure
    and parses as the error schema, the error returned carries the status
    code and what was parsed. *)
Lemma DecodeResponse_structured (status : Z) (body : string) (out : option T)
    (rest : io.Reader) (e : Error.t) :
  (400 ≤ status)%Z →
  json.Decode (bytes.NewReader body) Error.zero = (rest, e, None) →
  DecodeResponse (response status body) out =
  (out, Some (Error_value {| Error.StatusCode := status;
                             Error.ErrorType := Error.ErrorType e;
                             Error.Description := Error.Description e;
                             Error.Body := Error.Body e |})).
Proof.
  intros Hstatus Hdecode. unfold DecodeResponse, response. simpl.
  destruct (400 <=? status)%Z eqn:Hle; [| apply Z.leb_gt in Hle; lia].
  by rewrite Hdecode.
Qed.

(** C7: on status 404 and the body [{"error":"not_found"}], which parses
    as the error schema, [DecodeResponse] returns an [Error] with status
    code 404 and the parsed type and description; the raw body is not put in
    its place and no decoding failure is reported. *)
Theorem C7_not_found_is_typed (out : option T) (rest : io.Reader) (e : Error.t) :
  json.Decode (bytes.NewReader not_found_body) Error.zero = (rest, e, None) →
  DecodeResponse (response 404 not_found_body) out =
  (out, Some (Error_value {| Error.StatusCode := 404;
                             Error.ErrorType := Error.ErrorType e;
                             Error.Description := Error.Description e;
                             Error.Body := Error.Body e |})).
Proof. intros Hdecode. by apply DecodeResponse_structured with rest. Qed.

(** C3 fails on the code: [DecodeResponse] returns its [Error] by value,
    and the remap asks for a pointer.  It is the identity on everything
    [DecodeResponse] returns; a 404 does not become the not-whitelisted
    sentinel, nor a 403 that reports an exhausted quota the rate-limited
    one. *)
Theorem C3_remap_never_applies (res : http.Response) (out : option T) (body : string) :
  convertWhitelistError (DecodeResponse res out).2 = (DecodeResponse res out).2
  ∧ convertWhitelistError (DecodeResponse (response 404 body) out).2
    ≠ Some ErrNotWhitelisted
  ∧ convertWhitelistError (DecodeResponse (response 403 quota_body) out).2
    ≠ Some ErrRateLimited.
Proof.
  split; [| split].
  - apply convertWhitelistError_decode_error, DecodeResponse_error_shape.
  - rewrite convertWhitelistError_decode_error by apply DecodeResponse_error_shape.
    intros Heq. pose proof (DecodeResponse_error_shape (response 404 body) out) as Hs.
    rewrite Heq in Hs. inversion Hs.
  - rewrite convertWhitelistError_decode_error by apply DecodeResponse_error_shape.
    intros Heq. pose proof (DecodeResponse_error_shape (response 403 quota_body) out) as Hs.
    rewrite Heq in Hs. inversion Hs.
Qed.

(** Below status 400 and without a target, [request.go] returns nil and
    the other version an error, whatever the decoder. *)
Lemma nil_target_differs (res : http.Response) :
  (http.StatusCode res < 400)%Z →
  DecodeResponse (T := T) res None = (None, None)
  ∧ (part_006.DecodeResponse (T := T) res None).2 ≠ None.
Proof.
  intros Hstatus. unfold DecodeResponse, part_006.DecodeResponse.
  destruct (400 <=? http.StatusCode res)%Z eqn:Hle; [apply Z.leb_le in Hle; lia |].
  split; [done |].
  by destruct (json.Decode_nil (http.Body res)).
Qed.

(** C10, amended: the two versions of [DecodeResponse] return the same
    result in the two cases of [agreement_case]: below status 400 with a
    target, and from status 400 on when the body is read without failure and
    parses as the error schema. *)
Theorem C10_versions_agree (res : http.Response) (out : option T) :
  agreement_case res out →
  DecodeResponse res out = part_006.DecodeResponse res out.
Proof.
  unfold agreement_case, DecodeResponse, part_006.DecodeResponse.
  intros [[Hlow Hout] | (Hhigh & Hfault & Hparsed)].
  - destruct (400 <=? http.StatusCode res)%Z eqn:Hle; [apply Z.leb_le in Hle; lia |].
    destruct out as [v |]; [done | by destruct Hout].
  - destruct (400 <=? http.StatusCode res)%Z eqn:Hle; [| apply Z.leb_gt in Hle; lia].
    destruct res as [status [body fault]]. simpl in *. subst fault.
    unfold bytes.NewReader.
    destruct (json.Decode {| io.pending := body; io.fault := None |} Error.zero)
      as [[rest e] derr].
    simpl in Hparsed. by subst derr.
Qed.

End DecodeResponse_properties.

(** ** Whitelists *)

Section Whitelist_properties.
Context `{ErrTypes} `{json.Scanner} `{json.Decoder Error.t}.
Context `{json.Decoder Whitelist}.

(** C8, amended: the whitelist calls make no local check of the channel
    ID.  Whatever the ID, the empty one included, each of them issues
    exactly one request through the runner: a GET or a DELETE on the
    whitelist URL followed by [/] and the ID, a POST on the whitelist URL
    with the ID in the body.  What the call returns is made of the answer to
    that request and of nothing else: the error of the runner when the
    runner fails; otherwise the error of [DecodeResponse], passed through
    the remap, or the decoded whitelist. *)
Theorem C8_whitelist_calls_always_issue (runner : RequestRunner) (id owner : string) :
  (issued (GetWhitelist runner
             {| gwp_Id := id; gwp_OnBehalfOfContentOwner := owner |})
   = [ {| Method := http.MethodGet;
          Url := WhitelistUrl +:+ "/" +:+ id;
          Params := url.Add "onBehalfOfContentOwner" owner ∅;
          Body := None |} ]
   ∧ outcome (GetWhitelist runner
                {| gwp_Id := id; gwp_OnBehalfOfContentOwner := owner |})
     = match runner {| Method := http.MethodGet;
                       Url := WhitelistUrl +:+ "/" +:+ id;
                       Params := url.Add "onBehalfOfContentOwner" owner ∅;
                       Body := None |} with
       | Err err => (None, Some err)
       | Ok res =>
           match DecodeResponse res (Some Whitelist_zero) with
           | (_, Some err) => (None, convertWhitelistError (Some err))
           | (out, None) => (out, None)
           end
       end)
  ∧ (issued (InsertWhitelist runner
               {| iwp_Id := id; iwp_OnBehalfOfContentOwner := owner |})
     = [ {| Method := http.MethodPost;
            Url := WhitelistUrl;
            Params := url.Add "onBehalfOfContentOwner" owner ∅;
            Body := Some (<["id" := id]> (<["kind" := "youtubePartner#whitelist"]> ∅)) |} ]
     ∧ outcome (InsertWhitelist runner
                  {| iwp_Id := id; iwp_OnBehalfOfContentOwner := owner |})
       = match runner {| Method := http.MethodPost;
                         Url := WhitelistUrl;
                         Params := url.Add "onBehalfOfContentOwner" owner ∅;
                         Body := Some (<["id" := id]>
                                         (<["kind" := "youtubePartner#whitelist"]> ∅)) |} with
         | Err err => (None, Some err)
         | Ok res =>
             match DecodeResponse res (Some Whitelist_zero) with
             | (_, Some err) => (None, convertWhitelistError (Some err))
             | (out, None) => (out, None)
             end
         end)
  ∧ (issued (DeleteWhitelist runner
               {| dwp_Id := id; dwp_OnBehalfOfContentOwner := owner |})
     = [ {| Method := http.MethodDelete;
            Url := WhitelistUrl +:+ "/" +:+ id;
            Params := url.Add "onBehalfOfContentOwner" owner ∅;
            Body := None |} ]
     ∧ outcome (DeleteWhitelist runner
                  {| dwp_Id := id; dwp_OnBehalfOfContentOwner := owner |})
       = match runner {| Method := http.MethodDelete;
                         Url := WhitelistUrl +:+ "/" +:+ id;
                         Params := url.Add "onBehalfOfContentOwner" owner ∅;
                         Body := None |} with
         | Err err => Some err
         | Ok res => convertWhitelistError (DecodeResponse (T := Whitelist) res None).2
         end).
Proof.
  unfold issued, outcome, GetWhitelist, InsertWhitelist, DeleteWhitelist,
    InsertWhitelistParams_Body, mbind, Net_bind, Run, mret, Net_ret.
  simpl.
  split; [| split]; split.
  - destruct (runner _) as [res | err]; [| done].
    by destruct (DecodeResponse res (Some Whitelist_zero)) as [out [err |]].
  - destruct (runner _) as [res | err]; [| done].
    by destruct (DecodeResponse res (Some Whitelist_zero)) as [out [err |]].
  - destruct (runner _) as [res | err]; [| done].
    by destruct (DecodeResponse res (Some Whitelist_zero)) as [out [err |]].
  - destruct (runner _) as [res | err]; [| done].
    by destruct (DecodeResponse res (Some Whitelist_zero)) as [out [err |]].
  - by destruct (runner _) as [res | err].
  - by destruct (runner _) as [res | err].
Qed.

End Whitelist_properties.

(** ** Video listing through the bearer-token runner *)

Section ListVideos_properties.
Context `{ErrTypes} `{json.Scanner} `{json.Decoder Error.t}.
Context `{json.Decoder ListVideosResponse} `{http.Transport}.

(** C9, amended: for [Parts=[snippet]], [Ids=[abc123]] and no page token,
    [ListVideos] issues one request, and the query string that the runner
    appends to its URL is [id=abc123&part=snippet]: [Encode] writes the keys
    in sorted order. *)
Theorem C9_ListVideos_query (runner : AccessTokenRunner) :
  ∃ r, issued (ListVideos (AccessTokenRunner_Run runner) snippet_of_abc123) = [r]
       ∧ url.Encode (Params r) = "id=abc123&part=snippet"
       ∧ RawQuery (http.URL (AccessTokenRunner_request runner r))
         = "id=abc123&part=snippet".
Proof.
  eexists. split; [| split].
  - unfold issued, ListVideos, mbind, Net_bind, Run, mret, Net_ret. simpl.
    destruct (AccessTokenRunner_Run runner _) as [res | err]; [| reflexivity].
    by destruct (DecodeResponse res (Some ListVideosResponse_zero)) as [out [err |]].
  - vm_compute. reflexivity.
  - unfold AccessTokenRunner_request.
    destruct (strings.nonempty (atr_AccessToken runner)); vm_compute; reflexivity.
Qed.

End ListVideos_properties.

(** C9, as stated, fails: the encoded form of [Values()] does not start
    with the [part] key. *)
Lemma C9_counterexample :
  url.Encode (ListVideoParams_Values snippet_of_abc123) ≠ "part=snippet&id=abc123".
Proof. vm_compute. discriminate. Qed.

(** * Further properties of the code *)

(** ** Claim search: what [Values] holds *)

Lemma append_assoc (a b c : string) : (a +:+ b) +:+ c = a +:+ b +:+ c.
Proof.
  induction a as [| x a IH]; [done |].
  change (String x ((a +:+ b) +:+ c) = String x (a +:+ b +:+ c)).
  by rewrite IH.
Qed.

(** The status is attached whenever it is non-empty. *)
Lemma Values_status (p : SearchClaimsParams) :
  SearchClaimsParams_Values p !! "status" =
  if strings.nonempty (scp_Status p) then Some [scp_Status p] else None.
Proof.
  unfold SearchClaimsParams_Values. cbv zeta.
  rewrite lookup_if_Add_ne by done.
  destruct (scp_Sort p =? ClaimSortDate)%string;
    [| destruct (scp_Sort p =? ClaimSortViewCount)%string];
    destruct (scp_IncludeThirdPartyClaims p);
    rewrite ?(lookup_Add_ne "sort") by done;
    rewrite !lookup_if_Add_ne by done;
    rewrite lookup_Add_ne by done;
    (destruct (strings.nonempty (scp_Status p));
     [rewrite lookup_Add_eq | idtac];
     rewrite !lookup_if_Add_ne by done;
     by rewrite lookup_empty).
Qed.

(** [Values] always holds the [includeThirdPartyClaims] key, with the
    text of the boolean: the key is sent even when the caller left the field
    at its zero value. *)
Theorem Values_includeThirdPartyClaims (p : SearchClaimsParams) :
  SearchClaimsParams_Values p !! "includeThirdPartyClaims" =
  Some [if scp_IncludeThirdPartyClaims p then "true" else "false"].
Proof.
  unfold SearchClaimsParams_Values. cbv zeta.
  rewrite lookup_if_Add_ne by done.
  destruct (scp_Sort p =? ClaimSortDate)%string;
    [| destruct (scp_Sort p =? ClaimSortViewCount)%string];
    destruct (scp_IncludeThirdPartyClaims p);
    rewrite ?(lookup_Add_ne "sort") by done;
    rewrite !lookup_if_Add_ne by done;
    rewrite lookup_Add_eq;
    rewrite !lookup_if_Add_ne by done;
    by rewrite lookup_empty.
Qed.

(** [Values] holds a [sort] key for the two recognised orders only: any
    other value of [Sort] is dropped without an error. *)
Theorem Values_sort (p : SearchClaimsParams) :
  SearchClaimsParams_Values p !! "sort" =
  if String.eqb (scp_Sort p) "date" then Some ["date"]
  else if String.eqb (scp_Sort p) "viewCount" then Some ["viewCount"]
  else None.
Proof.
  unfold SearchClaimsParams_Values. cbv zeta.
  rewrite lookup_if_Add_ne by done.
  unfold ClaimSortDate, ClaimSortViewCount.
  destruct (scp_Sort p =? "date")%string;
    [| destruct (scp_Sort p =? "viewCount")%string];
    destruct (scp_IncludeThirdPartyClaims p);
    rewrite ?lookup_Add_eq;
    rewrite !lookup_if_Add_ne by done;
    rewrite lookup_Add_ne by done;
    rewrite !lookup_if_Add_ne by done;
    by rewrite lookup_empty.
Qed.

Lemma match_here_length (pat : list regexp.atom) (s : string) :
  regexp.match_here pat s = true → (length pat ≤ String.length s)%nat.
Proof.
  revert s. induction pat as [| a pat IH]; intros s Hm; simpl; [lia |].
  destruct s as [| c s]; [done |]. simpl in *.
  apply andb_true_iff in Hm as [_ Hm]. apply IH in Hm. lia.
Qed.

Lemma MatchString_length (pat : list regexp.atom) (s : string) :
  regexp.MatchString pat s = true → (length pat ≤ String.length s)%nat.
Proof.
  induction s as [| c s IH]; simpl; rewrite orb_true_iff.
  - intros [Hm | Hm]; [| done]. by apply match_here_length in Hm.
  - intros [Hm | Hm].
    + by apply match_here_length in Hm.
    + apply IH in Hm. lia.
Qed.

(** A date of the form [YYYY-MM-DD] is attached as it was given. *)
Theorem Values_attaches_date (p : SearchClaimsParams) :
  regexp.FullMatch DateRegexp (scp_StatusModifiedAfter p) = true →
  SearchClaimsParams_Values p !! "statusModifiedAfter"
  = Some [scp_StatusModifiedAfter p].
Proof.
  intros Hfull. rewrite Values_statusModifiedAfter.
  rewrite (FullMatch_MatchString _ _ Hfull), andb_true_r.
  destruct (scp_StatusModifiedAfter p); [discriminate Hfull | done].
Qed.

Lemma Values_attaches_date_witness :
  SearchClaimsParams_Values (modified_after ClaimStatusActive "2016-06-30")
    !! "statusModifiedAfter" = Some ["2016-06-30"].
Proof. apply Values_attaches_date. reflexivity. Defined.

(** A date filter shorter than ten bytes is never attached: the key is
    absent and no error is raised. *)
Theorem Values_drops_short_date (p : SearchClaimsParams) :
  (String.length (scp_StatusModifiedAfter p) < 10)%nat →
  SearchClaimsParams_Values p !! "statusModifiedAfter" = None.
Proof.
  intros Hshort. rewrite Values_statusModifiedAfter.
  destruct (regexp.MatchString DateRegexp (scp_StatusModifiedAfter p)) eqn:Hm.
  - apply MatchString_length in Hm. simpl in Hm. lia.
  - by rewrite andb_false_r.
Qed.

Lemma Values_drops_short_date_witness :
  SearchClaimsParams_Values (modified_after ClaimStatusActive "2016-6-30")
    !! "statusModifiedAfter" = None.
Proof. apply Values_drops_short_date. simpl. lia. Defined.

(** ** Claim search and claim patch: the calls *)

Section Claims_calls.
Context `{ErrTypes} `{json.Scanner} `{json.Decoder Error.t}.
Context `{json.Decoder SearchClaimsResponse} `{json.Decoder Claim}.

(** When [Validate] refuses the parameters, [SearchClaims] returns the
    search-params error and hands nothing to the runner. *)
Theorem SearchClaims_invalid_no_request (runner : RequestRunner)
    (p : SearchClaimsParams) (log : list Request) :
  SearchClaimsParams_Validate p = false →
  SearchClaims runner p log = ((None, Some ErrInvalidClaimSearchParams), log).
Proof. intros Hval. unfold SearchClaims. by rewrite Hval. Qed.

(** When [Validate] accepts the parameters, [SearchClaims] hands the
    runner exactly one request, a GET on the claim-search URL without a
    body, and that request carries a [status] key whose value is one of the
    eight recognised statuses. *)
Theorem SearchClaims_valid_one_request (runner : RequestRunner)
    (p : SearchClaimsParams) :
  SearchClaimsParams_Validate p = true →
  issued (SearchClaims runner p)
  = [ {| Method := http.MethodGet; Url := SearchClaimsUrl;
         Params := SearchClaimsParams_Values p; Body := None |} ]
  ∧ SearchClaimsParams_Values p !! "status" = Some [scp_Status p]
  ∧ In (scp_Status p) claim_statuses.
Proof.
  intros Hval. split; [| split].
  - unfold issued, SearchClaims. rewrite Hval.
    unfold mbind, Net_bind, Run, mret, Net_ret. simpl.
    destruct (runner _) as [res | err]; [| done].
    by destruct (DecodeResponse res (Some SearchClaimsResponse_zero)) as [out [err |]].
  - apply Validate_true_iff in Hval as (_ & _ & _ & _ & Hvalid).
    rewrite Values_status.
    by rewrite (proj2 (nonempty_true _) (Valid_nonempty _ Hvalid)).
  - apply Validate_true_iff in Hval as (_ & _ & _ & _ & Hvalid).
    unfold ClaimStatus_Valid in Hvalid. apply existsb_exists in Hvalid as (s & Hin & Heq).
    apply String.eqb_eq in Heq. by subst s.
Qed.

(** When [Validate] refuses the parameters (an empty claim ID, or an
    empty or unrecognised status), [PatchClaims] returns the patch-params
    error and hands nothing to the runner. *)
Theorem PatchClaims_invalid_no_request (runner : RequestRunner)
    (p : PatchClaimsParams) (log : list Request) :
  PatchClaimsParams_Validate p = false →
  PatchClaims runner p log = ((None, Some ErrInvalidPatchClaimsParams), log).
Proof. intros Hval. unfold PatchClaims. by rewrite Hval. Qed.

(** When [Validate] accepts the parameters, [Body] cannot fail, and
    [PatchClaims] hands the runner exactly one request: a PATCH on the claim
    URL followed by the claim ID, whose body holds the status and nothing
    else. *)
Theorem PatchClaims_valid_one_request (runner : RequestRunner)
    (p : PatchClaimsParams) :
  PatchClaimsParams_Validate p = true →
  PatchClaimsParams_Body p = Ok {[ "status" := pcp_Status p ]}
  ∧ issued (PatchClaims runner p)
    = [ {| Method := http.MethodPatch;
           Url := PatchClaimUrl +:+ "/" +:+ pcp_ClaimId p;
           Params := PatchClaimsParams_Params p;
           Body := Some {[ "status" := pcp_Status p ]} |} ].
Proof.
  intros Hval.
  assert (Hbody : PatchClaimsParams_Body p = Ok {[ "status" := pcp_Status p ]}).
  { unfold PatchClaimsParams_Validate in Hval.
    apply andb_true_iff in Hval as [Hval Hvalid].
    apply andb_true_iff in Hval as [_ Hstatus].
    unfold PatchClaimsParams_Body. rewrite Hstatus, Hvalid. simpl.
    rewrite insert_empty, map_size_singleton. reflexivity. }
  split; [exact Hbody |].
  unfold issued, PatchClaims. rewrite Hval, Hbody.
  unfold mbind, Net_bind, Run, mret, Net_ret. simpl.
  destruct (runner _) as [res | err]; [| done].
  by destruct (DecodeResponse res (Some Claim_zero)) as [out [err |]].
Qed.

End Claims_calls.

(** ** [DecodeResponse]: statuses, targets and failures *)

Section DecodeResponse_more.
Context `{ErrTypes} `{json.Scanner} `{json.Decoder Error.t}.
Context {T : Type} `{json.Decoder T}.

(** From status 400 on, [DecodeResponse] never returns nil and never
    writes to the target.  The error is the failure of the read of the body,
    when it failed, and otherwise an [Error] that carries the status code of
    the response. *)
Theorem DecodeResponse_error_status (res : http.Response) (out : option T) :
  (400 ≤ http.StatusCode res)%Z →
  (DecodeResponse res out).1 = out
  ∧ match (DecodeResponse res out).2 with
    | Some (Error_value e) =>
        io.fault (http.Body res) = None
        ∧ Error.StatusCode e = http.StatusCode res
    | Some (lib_error text) => io.fault (http.Body res) = Some text
    | _ => False
    end.
Proof.
  intros Hstatus. unfold DecodeResponse.
  destruct (400 <=? http.StatusCode res)%Z eqn:Hle; [| apply Z.leb_gt in Hle; lia].
  unfold io.ReadAll. destruct (io.fault (http.Body res)) as [text |]; [done |].
  by destruct (json.Decode _ Error.zero) as [[rest e] [text |]].
Qed.

(** From status 400 on, a body that does not parse as the error schema
    gives an [Error] of the unknown type whose description is the whole
    body, with the status code of the response. *)
Theorem DecodeResponse_unparsed_body (status : Z) (body text : string)
    (out : option T) :
  (400 ≤ status)%Z →
  (json.Decode (bytes.NewReader body) Error.zero).2 = Some text →
  ∃ e, DecodeResponse (response status body) out = (out, Some (Error_value e))
       ∧ Error.StatusCode e = status
       ∧ Error.ErrorType e = ErrTypeUnknown
       ∧ Error.Description e = body.
Proof.
  intros Hstatus Hdecode. unfold DecodeResponse, response. simpl.
  destruct (400 <=? status)%Z eqn:Hle; [| apply Z.leb_gt in Hle; lia].
  destruct (json.Decode (bytes.NewReader body) Error.zero) as [[rest e] derr].
  simpl in Hdecode. subst derr. eauto.
Qed.

(** Below status 400 with a target, a successful decoding gives nil and
    leaves the decoded value in the target. *)
Theorem DecodeResponse_success (res : http.Response) (v v' : T) (rest : io.Reader) :
  (http.StatusCode res < 400)%Z →
  json.Decode (http.Body res) v = (rest, v', None) →
  DecodeResponse res (Some v) = (Some v', None).
Proof.
  intros Hstatus Hdecode. unfold DecodeResponse.
  destruct (400 <=? http.StatusCode res)%Z eqn:Hle; [apply Z.leb_le in Hle; lia |].
  by rewrite Hdecode.
Qed.

(** Below status 400 with a target, a failed decoding gives an [Error]
    whose status code is 0, not that of the response: of the JSON type, with
    the text of the failure and what was left of the body, or of the body
    type when reading the rest of the body failed too. *)
Theorem DecodeResponse_decode_failure (res : http.Response) (v v' : T)
    (rest : io.Reader) (text : string) :
  (http.StatusCode res < 400)%Z →
  json.Decode (http.Body res) v = (rest, v', Some text) →
  (DecodeResponse res (Some v)).2 =
  Some (Error_value
          match io.fault rest with
          | None => {| Error.StatusCode := 0; Error.ErrorType := ErrTypeJSON;
                       Error.Description := text; Error.Body := io.pending rest |}
          | Some btext => {| Error.StatusCode := 0; Error.ErrorType := ErrTypeBody;
                             Error.Description := btext; Error.Body := "" |}
          end).
Proof.
  intros Hstatus Hdecode. unfold DecodeResponse.
  destruct (400 <=? http.StatusCode res)%Z eqn:Hle; [apply Z.leb_le in Hle; lia |].
  rewrite Hdecode. simpl. unfold decode_failure, io.ReadAll.
  by destruct (io.fault rest).
Qed.

(** With a target, what [DecodeResponse] leaves in it is a value: the
    target is never lost. *)
Lemma DecodeResponse_target (res : http.Response) (v : T) :
  ∃ v', (DecodeResponse res (Some v)).1 = Some v'.
Proof.
  unfold DecodeResponse.
  destruct (400 <=? http.StatusCode res)%Z.
  - destruct (io.ReadAll (http.Body res)) as [body [text |]]; simpl; [eauto |].
    destruct (json.Decode _ Error.zero) as [[rest e] [text |]]; simpl; eauto.
  - destruct (json.Decode (http.Body res) v) as [[rest v'] [text |]]; simpl; eauto.
Qed.

(** The tail that every call shares, after [DecodeResponse]: the value
    when there is no error, the error alone otherwise. *)
Lemma decoded_value_xor_error (res : http.Response) (v : T) (f : error → option error) :
  (∀ e, f e ≠ None) →
  value_xor_error
    (match DecodeResponse res (Some v) with
     | (_, Some err) => (None, f err)
     | (out, None) => (out, None)
     end).
Proof.
  intros Hf. destruct (DecodeResponse_target res v) as [v' Hv'].
  destruct (DecodeResponse res (Some v)) as [out [err |]]; simpl in *.
  - right. destruct (f err) as [e |] eqn:Hfe; [eauto | by destruct (Hf err)].
  - left. subst out. eauto.
Qed.

End DecodeResponse_more.

(** ** The whitelist remap and the whitelist calls *)

Lemma convertWhitelistError_nil (err : option error) :
  convertWhitelistError err = None ↔ err = None.
Proof.
  destruct err as [[text | text | e | e] |]; simpl; try done.
  destruct (Error.StatusCode e =? 404)%Z; [done |].
  destruct ((Error.StatusCode e =? 403)%Z
            && strings.Contains (Error.Body e) "quotaExceeded"); done.
Qed.

(** The remap keeps nil apart from errors (nil goes to nil, an error to an
    error), and applying it twice is applying it once. *)
Theorem convertWhitelistError_idempotent (err : option error) :
  (convertWhitelistError err = None ↔ err = None)
  ∧ convertWhitelistError (convertWhitelistError err) = convertWhitelistError err.
Proof.
  split; [apply convertWhitelistError_nil |].
  destruct err as [[text | text | e | e] |]; simpl; try done.
  destruct (Error.StatusCode e =? 404)%Z eqn:H404; [done |].
  destruct ((Error.StatusCode e =? 403)%Z
            && strings.Contains (Error.Body e) "quotaExceeded") eqn:H403; [done |].
  simpl. by rewrite H404, H403.
Qed.

Section Whitelist_calls.
Context `{ErrTypes} `{json.Scanner} `{json.Decoder Error.t}.
Context `{json.Decoder Whitelist}.

(** A failure of the runner is returned as it is by the three whitelist
    calls: the remap is applied to the errors of [DecodeResponse] only, so
    even a pointer to an [Error] of status 404 that comes from the runner is
    not turned into the not-whitelisted sentinel. *)
Theorem whitelist_runner_failure (runner : RequestRunner) (err : error)
    (id owner : string) :
  (∀ r, runner r = Err err) →
  outcome (GetWhitelist runner {| gwp_Id := id; gwp_OnBehalfOfContentOwner := owner |})
  = (None, Some err)
  ∧ outcome (InsertWhitelist runner {| iwp_Id := id; iwp_OnBehalfOfContentOwner := owner |})
    = (None, Some err)
  ∧ outcome (DeleteWhitelist runner {| dwp_Id := id; dwp_OnBehalfOfContentOwner := owner |})
    = Some err.
Proof.
  intros Hfail.
  unfold outcome, GetWhitelist, InsertWhitelist, DeleteWhitelist,
    InsertWhitelistParams_Body, mbind, Net_bind, Run, mret, Net_ret.
  simpl. by rewrite !Hfail.
Qed.

(** [DeleteWhitelist] passes no target: on any answer below status 400 it
    returns nil, whatever the body holds. *)
Theorem DeleteWhitelist_success (runner : RequestRunner) (res : http.Response)
    (p : DeleteWhitelistParams) :
  (∀ r, runner r = Ok res) →
  (http.StatusCode res < 400)%Z →
  outcome (DeleteWhitelist runner p) = None.
Proof.
  intros Hrun Hstatus.
  unfold outcome, DeleteWhitelist, mbind, Net_bind, Run, mret, Net_ret.
  simpl. rewrite Hrun. unfold DecodeResponse.
  destruct (400 <=? http.StatusCode res)%Z eqn:Hle; [apply Z.leb_le in Hle; lia |].
  reflexivity.
Qed.

(** [GetWhitelist] and [InsertWhitelist] return a whitelist or an error,
    never both and never neither. *)
Theorem whitelist_value_xor_error (runner : RequestRunner)
    (g : GetWhitelistParams) (i : InsertWhitelistParams) :
  value_xor_error (outcome (GetWhitelist runner g))
  ∧ value_xor_error (outcome (InsertWhitelist runner i)).
Proof.
  assert (Hconv : ∀ e, convertWhitelistError (Some e) ≠ None).
  { intros e He. discriminate (proj1 (convertWhitelistError_nil _) He). }
  unfold outcome, GetWhitelist, InsertWhitelist, InsertWhitelistParams_Body,
    mbind, Net_bind, Run, mret, Net_ret.
  simpl. split.
  - destruct (runner _) as [res | err]; [| right; eauto].
    pose proof (decoded_value_xor_error res Whitelist_zero
                  (λ e, convertWhitelistError (Some e)) Hconv) as Hx.
    by destruct (DecodeResponse res (Some Whitelist_zero)) as [out [err |]].
  - destruct (runner _) as [res | err]; [| right; eauto].
    pose proof (decoded_value_xor_error res Whitelist_zero
                  (λ e, convertWhitelistError (Some e)) Hconv) as Hx.
    by destruct (DecodeResponse res (Some Whitelist_zero)) as [out [err |]].
Qed.

End Whitelist_calls.

(** ** Video listing: the call *)

Section ListVideos_call.
Context `{ErrTypes} `{json.Scanner} `{json.Decoder Error.t}.
Context `{json.Decoder ListVideosResponse}.

(** [ListVideos] checks nothing: whatever the parts (none, or names that
    [Valid] does not recognise), it hands the runner exactly one request, a
    GET on the videos URL without a body, and a failure of the runner is
    returned as it is. *)
Theorem ListVideos_one_request (runner : RequestRunner) (p : ListVideoParams) :
  issued (ListVideos runner p)
  = [ {| Method := http.MethodGet; Url := ListVideosUrl;
         Params := ListVideoParams_Values p; Body := None |} ]
  ∧ value_xor_error (outcome (ListVideos runner p))
  ∧ ∀ err, runner {| Method := http.MethodGet; Url := ListVideosUrl;
                     Params := ListVideoParams_Values p; Body := None |} = Err err →
           outcome (ListVideos runner p) = (None, Some err).
Proof.
  unfold issued, outcome, ListVideos, mbind, Net_bind, Run, mret, Net_ret.
  simpl. split; [| split].
  - destruct (runner _) as [res | err]; [| done].
    by destruct (DecodeResponse res (Some ListVideosResponse_zero)) as [out [err |]].
  - destruct (runner _) as [res | err]; [| right; eauto].
    pose proof (decoded_value_xor_error res ListVideosResponse_zero Some
                  ltac:(done)) as Hx.
    by destruct (DecodeResponse res (Some ListVideosResponse_zero)) as [out [err |]].
  - intros err Herr. by rewrite Herr.
Qed.

End ListVideos_call.

(** ** Query strings *)

Lemma write_pair_first (k v : string) :
  url.write_pair "" k v = k +:+ "=" +:+ url.QueryEscape v.
Proof. reflexivity. Qed.

Lemma write_pair_next (buf k v : string) :
  buf ≠ "" →
  url.write_pair buf k v = buf +:+ "&" +:+ k +:+ "=" +:+ url.QueryEscape v.
Proof.
  intros Hne. unfold url.write_pair.
  rewrite (proj2 (nonempty_true _) Hne). apply append_assoc.
Qed.

(** Evaluate [Encode] on values built by [Add] under constant keys, the
    sorted keys being [keys]. *)
Ltac encode_with keys :=
  unfold url.Encode;
  match goal with
  | |- context [url.sort_keys ?l] =>
      replace (url.sort_keys l) with keys by (vm_compute; reflexivity)
  end;
  simpl foldl; unfold url.write_key;
  repeat (rewrite ?lookup_Add_eq, ?lookup_empty; rewrite ?lookup_Add_ne by done);
  simpl default; simpl foldl;
  rewrite write_pair_first; repeat (rewrite write_pair_next by done);
  rewrite ?append_assoc; reflexivity.

(** The query string of a video listing.  With a page token it is
    [pageToken=..&part=..] and the IDs are left out; without one and with
    IDs it is [id=..&part=..]; otherwise [part=..] alone.  The joined lists
    go through the escaping, which turns their commas into [%2C]. *)
Theorem ListVideoParams_query (o : ListVideoParams) :
  url.Encode (ListVideoParams_Values o) =
  if strings.nonempty (PageToken o)
  then "pageToken=" +:+ url.QueryEscape (PageToken o)
       +:+ "&part=" +:+ url.QueryEscape (strings.Join (Parts o) ",")
  else if (0 <? length (Ids o))%nat
  then "id=" +:+ url.QueryEscape (strings.Join (Ids o) ",")
       +:+ "&part=" +:+ url.QueryEscape (strings.Join (Parts o) ",")
  else "part=" +:+ url.QueryEscape (strings.Join (Parts o) ",").
Proof.
  unfold ListVideoParams_Values. cbv zeta. rewrite convertParts_Parts.
  destruct (strings.nonempty (PageToken o)); [| destruct (0 <? length (Ids o))%nat].
  - encode_with ["pageToken"; "part"].
  - encode_with ["id"; "part"].
  - encode_with ["part"].
Qed.

(** The query string of the three whitelist calls is
    [onBehalfOfContentOwner=] followed by the escaped owner: the key is sent
    even when the owner is empty. *)
Theorem whitelist_query (id owner : string) :
  url.Encode (GetWhitelistParams_Values
                {| gwp_Id := id; gwp_OnBehalfOfContentOwner := owner |})
  = "onBehalfOfContentOwner=" +:+ url.QueryEscape owner
  ∧ url.Encode (InsertWhitelistParams_Values
                  {| iwp_Id := id; iwp_OnBehalfOfContentOwner := owner |})
    = "onBehalfOfContentOwner=" +:+ url.QueryEscape owner
  ∧ url.Encode (DeleteWhitelistParams_Values
                  {| dwp_Id := id; dwp_OnBehalfOfContentOwner := owner |})
    = "onBehalfOfContentOwner=" +:+ url.QueryEscape owner.
Proof.
  unfold GetWhitelistParams_Values, InsertWhitelistParams_Values,
    DeleteWhitelistParams_Values. simpl.
  repeat split; encode_with ["onBehalfOfContentOwner"].
Qed.

(** The query string of a claim patch holds the owner when there is one
    and is empty otherwise: unlike the whitelist calls, the key is left out
    for an empty owner. *)
Theorem PatchClaimsParams_query (p : PatchClaimsParams) :
  url.Encode (PatchClaimsParams_Params p) =
  if strings.nonempty (pcp_OnBehalfOfContentOwner p)
  then "onBehalfOfContentOwner=" +:+ url.QueryEscape (pcp_OnBehalfOfContentOwner p)
  else "".
Proof.
  unfold PatchClaimsParams_Params. cbv zeta.
  destruct (strings.nonempty (pcp_OnBehalfOfContentOwner p)); [| reflexivity].
  unfold url.Set_. rewrite insert_empty.
  unfold url.Encode. rewrite map_to_list_singleton. simpl.
  unfold url.write_key. rewrite lookup_singleton_eq. reflexivity.
Qed.

(** ** The runners *)

Section Runners.
Context `{http.Transport}.

Lemma AccessTokenRunner_request_shape (runner : AccessTokenRunner) (r : Request) :
  AccessTokenRunner_request runner r =
  {| http.Method := Method r;
     http.URL := Url r +:+ "?" +:+ url.Encode (Params r);
     http.Header := if strings.nonempty (atr_AccessToken runner)
                    then {[ "Authorization" := ["Bearer " +:+ atr_AccessToken runner] ]}
                    else ∅;
     http.ReqBody := Body r |}.
Proof.
  unfold AccessTokenRunner_request.
  by destruct (strings.nonempty (atr_AccessToken runner)).
Qed.

(** What [AccessTokenRunner.Run] does with a request, for every transport.
    When [http.NewRequest] refuses the method or the URL, its error is
    returned and the client is not called.  Otherwise the answer is that of
    [client.Do], under the timeout of the runner, to the request with the
    method and the body of the [Request], the URL [Url + "?" +
    Params.Encode()] and, as only header, [Authorization] with [Bearer] and
    the token when the token is not empty; with an empty token no header is
    sent. *)
Theorem AccessTokenRunner_Run_sends (runner : AccessTokenRunner) (r : Request) :
  AccessTokenRunner_Run runner r =
  match http.NewRequest_refuses (Method r) (Url r +:+ "?" +:+ url.Encode (Params r)) with
  | Some text => Err (lib_error text)
  | None =>
      http.Client_Do (atr_Timeout runner)
        {| http.Method := Method r;
           http.URL := Url r +:+ "?" +:+ url.Encode (Params r);
           http.Header :=
             if strings.nonempty (atr_AccessToken runner)
             then {[ "Authorization" := ["Bearer " +:+ atr_AccessToken runner] ]}
             else ∅;
           http.ReqBody := Body r |}
  end.
Proof.
  unfold AccessTokenRunner_Run. by rewrite AccessTokenRunner_request_shape.
Qed.

(** Without a token the bearer-token runner is the unauthenticated
    runner, and so is the custom-client runner when it is given the client
    of that timeout. *)
Theorem runners_coincide (runner : AccessTokenRunner) (r : Request) :
  atr_AccessToken runner = "" →
  AccessTokenRunner_Run runner r
  = UnauthenticatedRunner_Run {| ur_Timeout := atr_Timeout runner |} r
  ∧ CustomClientRunner_Run {| ccr_Client := http.Client_Do (atr_Timeout runner) |} r
    = UnauthenticatedRunner_Run {| ur_Timeout := atr_Timeout runner |} r.
Proof.
  intros Htoken.
  unfold AccessTokenRunner_Run, UnauthenticatedRunner_Run, CustomClientRunner_Run,
    AccessTokenRunner_request, plain_request.
  by rewrite Htoken.
Qed.

End Runners.

(** ** Token exchange and user info *)

Section Token_calls.
Context `{ErrTypes} `{json.Scanner} `{json.Decoder Error.t}.
Context `{json.Decoder Token} `{json.Decoder UserInfo} `{http.Transport}.

(** [ExchangeAuthToken] issues exactly one request, a POST on the token
    URL without a body: the client ID, the client secret, the code and the
    redirect URI all travel in the query string, escaped and in the sorted
    order of their keys. *)
Theorem ExchangeAuthToken_request (clientId clientSecret code redirect : string)
    (timeout : Z) :
  ∃ r, issued (ExchangeAuthToken clientId clientSecret code redirect timeout) = [r]
       ∧ Method r = "POST" ∧ Url r = ExchangeOAuthTokenUrl ∧ Body r = None
       ∧ url.Encode (Params r) =
         "client_id=" +:+ url.QueryEscape clientId
         +:+ "&client_secret=" +:+ url.QueryEscape clientSecret
         +:+ "&code=" +:+ url.QueryEscape code
         +:+ "&grant_type=authorization_code"
         +:+ "&redirect_uri=" +:+ url.QueryEscape redirect.
Proof.
  eexists. split.
  - unfold issued, ExchangeAuthToken, mbind, Net_bind, Run, mret, Net_ret. simpl.
    destruct (UnauthenticatedRunner_Run _ _) as [res | err]; [| reflexivity].
    by destruct (DecodeResponse res (Some Token_zero)) as [out [err |]].
  - repeat split. simpl. unfold ExchangeAuthToken_vals. cbv zeta.
    encode_with ["client_id"; "client_secret"; "code"; "grant_type"; "redirect_uri"].
Qed.

(** [ExchangeJwtToken] issues exactly one request, a POST on the token
    URL without a body, whose query string is the escaped assertion followed
    by the JWT-bearer grant type. *)
Theorem ExchangeJwtToken_request (jwt : string) (timeout : Z) :
  ∃ r, issued (ExchangeJwtToken jwt timeout) = [r]
       ∧ Method r = "POST" ∧ Url r = ExchangeOAuthTokenUrl ∧ Body r = None
       ∧ url.Encode (Params r) =
         "assertion=" +:+ url.QueryEscape jwt
         +:+ "&grant_type=urn%3Aietf%3Aparams%3Aoauth%3Agrant-type%3Ajwt-bearer".
Proof.
  eexists. split.
  - unfold issued, ExchangeJwtToken, mbind, Net_bind, Run, mret, Net_ret. simpl.
    destruct (UnauthenticatedRunner_Run _ _) as [res | err]; [| reflexivity].
    by destruct (DecodeResponse res (Some Token_zero)) as [out [err |]].
  - repeat split. simpl. unfold ExchangeJwtToken_vals. cbv zeta.
    encode_with ["assertion"; "grant_type"].
Qed.

(** [GetUserInfo] issues exactly one request, a GET without parameters,
    through a bearer-token runner made of its own token and timeout.  For
    every transport: the URL handed to [http.NewRequest] is the user-info
    URL followed by a bare [?]; when it is refused, that error is returned;
    otherwise the call returns what [DecodeResponse] makes of the answer of
    [client.Do], under the given timeout, to the GET on that URL whose only
    header is [Authorization] with [Bearer] and the token when the token is
    not empty, and which has no header when it is empty. *)
Theorem GetUserInfo_request (token : string) (timeout : Z) :
  issued (GetUserInfo token timeout)
  = [ {| Method := "GET"; Url := UserInfoUrl; Params := ∅; Body := None |} ]
  ∧ outcome (GetUserInfo token timeout) =
    match http.NewRequest_refuses "GET" (UserInfoUrl +:+ "?") with
    | Some text => (None, Some (lib_error text))
    | None =>
        match http.Client_Do timeout
                {| http.Method := "GET";
                   http.URL := UserInfoUrl +:+ "?";
                   http.Header := if strings.nonempty token
                                  then {[ "Authorization" := ["Bearer " +:+ token] ]}
                                  else ∅;
                   http.ReqBody := None |} with
        | Err err => (None, Some err)
        | Ok res =>
            match DecodeResponse res (Some UserInfo_zero) with
            | (_, Some err) => (None, Some err)
            | (out, None) => (out, None)
            end
        end
    end.
Proof.
  unfold issued, outcome, GetUserInfo, mbind, Net_bind, Run, mret, Net_ret.
  simpl. split.
  - destruct (AccessTokenRunner_Run _ _) as [res | err]; [| reflexivity].
    by destruct (DecodeResponse res (Some UserInfo_zero)) as [out [err |]].
  - unfold AccessTokenRunner_Run. rewrite AccessTokenRunner_request_shape. simpl.
    change (request_target {| Method := http.MethodGet; Url := UserInfoUrl;
                              Params := ∅; Body := None |})
      with (UserInfoUrl +:+ "?").
    change http.MethodGet with "GET".
    destruct (http.NewRequest_refuses "GET" (UserInfoUrl +:+ "?")) as [text |];
      [reflexivity |].
    destruct (http.Client_Do timeout _) as [res | err]; [| reflexivity].
    by destruct (DecodeResponse res (Some UserInfo_zero)) as [out [err |]].
Qed.

End Token_calls.

Section Claims_results.
Context `{ErrTypes} `{json.Scanner} `{json.Decoder Error.t}.
Context `{json.Decoder SearchClaimsResponse} `{json.Decoder Claim}.

(** [SearchClaims] and [PatchClaims] return a value or an error, never
    both and never neither, whether they stop at the validation, at the
    runner or at the decoding. *)
Theorem claims_value_xor_error (runner : RequestRunner)
    (s : SearchClaimsParams) (p : PatchClaimsParams) :
  value_xor_error (outcome (SearchClaims runner s))
  ∧ value_xor_error (outcome (PatchClaims runner p)).
Proof.
  unfold outcome, SearchClaims, PatchClaims. split.
  - destruct (SearchClaimsParams_Validate s); simpl; [| right; eauto].
    unfold mbind, Net_bind, Run, mret, Net_ret. simpl.
    destruct (runner _) as [res | err]; [| right; eauto].
    pose proof (decoded_value_xor_error res SearchClaimsResponse_zero Some
                  ltac:(done)) as Hx.
    by destruct (DecodeResponse res (Some SearchClaimsResponse_zero)) as [out [err |]].
  - destruct (PatchClaimsParams_Validate p); simpl; [| right; eauto].
    destruct (PatchClaimsParams_Body p) as [body | err]; [| right; eauto].
    unfold mbind, Net_bind, Run, mret, Net_ret. simpl.
    destruct (runner _) as [res | err]; [| right; eauto].
    pose proof (decoded_value_xor_error res Claim_zero Some ltac:(done)) as Hx.
    by destruct (DecodeResponse res (Some Claim_zero)) as [out [err |]].
Qed.

End Claims_results.

(** * The model at work on concrete responses *)

#[local] Existing Instances Sample.errtypes Sample.scanner Sample.decoder_Error
  Sample.decoder_Whitelist Sample.decoder_Claim.

Lemma C5_patch_bad_status_witness :
  PatchClaimsParams_Body
    {| pcp_ClaimId := "c1"; pcp_OnBehalfOfContentOwner := ""; pcp_Status := "released" |}
  = Err ErrInvalidPatchClaimsParams
  ∧ PatchClaims (constant_runner (response 200 "{}"))
      {| pcp_ClaimId := "c1"; pcp_OnBehalfOfContentOwner := ""; pcp_Status := "released" |}
      []
    = ((None, Some ErrInvalidPatchClaimsParams), []).
Proof. apply C5_patch_bad_status. right. reflexivity. Defined.

Lemma C7_not_found_is_typed_witness :
  DecodeResponse (response 404 not_found_body) (Some Whitelist_zero) =
  (Some Whitelist_zero,
   Some (Error_value {| Error.StatusCode := 404; Error.ErrorType := "not_found";
                        Error.Description := ""; Error.Body := "" |})).
Proof.
  apply (C7_not_found_is_typed (Some Whitelist_zero)
           (Sample.drained (bytes.NewReader not_found_body))
           {| Error.StatusCode := 0; Error.ErrorType := "not_found";
              Error.Description := ""; Error.Body := "" |}).
  reflexivity.
Defined.

(** The failing input of C3, through the whitelist calls: a 404 comes
    back as the typed error, and so does a 403 that reports an exhausted
    quota. *)
Example whitelist_errors_not_remapped :
  outcome (GetWhitelist (constant_runner (response 404 not_found_body))
             {| gwp_Id := "UC123"; gwp_OnBehalfOfContentOwner := "owner" |})
  = (None, Some (Error_value {| Error.StatusCode := 404; Error.ErrorType := "not_found";
                                Error.Description := ""; Error.Body := "" |}))
  ∧ outcome (DeleteWhitelist (constant_runner (response 403 quota_body))
               {| dwp_Id := "UC123"; dwp_OnBehalfOfContentOwner := "owner" |})
    = Some (Error_value {| Error.StatusCode := 403; Error.ErrorType := "quotaExceeded";
                           Error.Description := ""; Error.Body := "" |}).
Proof. split; reflexivity. Qed.

(** C8, as stated, fails: with an empty channel ID, [GetWhitelist] hands
    a request to the runner and returns what the server answered, without
    any local error. *)
Lemma C8_counterexample :
  map Url (issued (GetWhitelist (constant_runner (response 200 (flat_object [("id", ""); ("title", "none")])))
                     {| gwp_Id := ""; gwp_OnBehalfOfContentOwner := "" |}))
  = [ WhitelistUrl +:+ "/" ]
  ∧ outcome (GetWhitelist (constant_runner (response 200 (flat_object [("id", ""); ("title", "none")])))
               {| gwp_Id := ""; gwp_OnBehalfOfContentOwner := "" |})
    = (Some {| wl_Id := ""; wl_Title := "none" |}, None).
Proof. split; reflexivity. Qed.

(** C10, as stated, fails: on a success status and a nil target,
    [request.go] returns nil and the other version a typed error. *)
Lemma C10_counterexample :
  DecodeResponse (T := Whitelist) (response 200 "{}") None
  ≠ part_006.DecodeResponse (T := Whitelist) (response 200 "{}") None.
Proof. vm_compute. discriminate. Qed.

(** The two versions also part on an error status whose body does not
    parse: [request.go] reports the whole body, the other version what the
    decoder left of it. *)
Example unparsed_body_differs :
  (DecodeResponse (T := Whitelist) (response 500 "Internal Server Error") None).2
  = Some (Error_value {| Error.StatusCode := 500; Error.ErrorType := "unknown";
                         Error.Description := "Internal Server Error";
                         Error.Body := "" |})
  ∧ (part_006.DecodeResponse (T := Whitelist) (response 500 "Internal Server Error") None).2
    = Some (Error_value {| Error.StatusCode := 500; Error.ErrorType := "unknown";
                           Error.Description := ""; Error.Body := "" |}).
Proof. split; reflexivity. Qed.

Lemma C10_versions_agree_witness :
  DecodeResponse (response 404 not_found_body) (Some Whitelist_zero)
  = part_006.DecodeResponse (response 404 not_found_body) (Some Whitelist_zero).
Proof.
  apply C10_versions_agree. right.
  split; [simpl; lia |]. split; reflexivity.
Defined.

(** ** The further properties on concrete inputs *)

#[local] Existing Instance Sample.decoder_SearchClaimsResponse.

Lemma SearchClaims_invalid_no_request_witness :
  SearchClaims (constant_runner (response 200 "{}")) (status_only "released") []
  = ((None, Some ErrInvalidClaimSearchParams), []).
Proof. apply SearchClaims_invalid_no_request. reflexivity. Defined.

Lemma SearchClaims_valid_one_request_witness :
  issued (SearchClaims (constant_runner (response 200 "{}"))
            (status_only ClaimStatusDisputed))
  = [ {| Method := http.MethodGet; Url := SearchClaimsUrl;
         Params := SearchClaimsParams_Values (status_only ClaimStatusDisputed);
         Body := None |} ]
  ∧ SearchClaimsParams_Values (status_only ClaimStatusDisputed) !! "status"
    = Some [ClaimStatusDisputed]
  ∧ In ClaimStatusDisputed claim_statuses.
Proof.
  apply (SearchClaims_valid_one_request (constant_runner (response 200 "{}"))
           (status_only ClaimStatusDisputed)).
  reflexivity.
Defined.

Lemma PatchClaims_invalid_no_request_witness :
  PatchClaims (constant_runner (response 200 "{}"))
    {| pcp_ClaimId := ""; pcp_OnBehalfOfContentOwner := "";
       pcp_Status := ClaimStatusInactive |} []
  = ((None, Some ErrInvalidPatchClaimsParams), []).
Proof. apply PatchClaims_invalid_no_request. reflexivity. Defined.

Lemma PatchClaims_valid_one_request_witness :
  PatchClaimsParams_Body
    {| pcp_ClaimId := "c1"; pcp_OnBehalfOfContentOwner := "owner";
       pcp_Status := ClaimStatusInactive |}
  = Ok {[ "status" := ClaimStatusInactive ]}
  ∧ issued (PatchClaims (constant_runner (response 200 "{}"))
              {| pcp_ClaimId := "c1"; pcp_OnBehalfOfContentOwner := "owner";
                 pcp_Status := ClaimStatusInactive |})
    = [ {| Method := http.MethodPatch;
           Url := PatchClaimUrl +:+ "/" +:+ "c1";
           Params := PatchClaimsParams_Params
                       {| pcp_ClaimId := "c1"; pcp_OnBehalfOfContentOwner := "owner";
                          pcp_Status := ClaimStatusInactive |};
           Body := Some {[ "status" := ClaimStatusInactive ]} |} ].
Proof.
  apply (PatchClaims_valid_one_request (constant_runner (response 200 "{}"))
           {| pcp_ClaimId := "c1"; pcp_OnBehalfOfContentOwner := "owner";
              pcp_Status := ClaimStatusInactive |}).
  reflexivity.
Defined.

Lemma DecodeResponse_error_status_witness :
  (DecodeResponse (response 500 "Internal Server Error") (Some Whitelist_zero)).1
  = Some Whitelist_zero
  ∧ match (DecodeResponse (response 500 "Internal Server Error")
             (Some Whitelist_zero)).2 with
    | Some (Error_value e) =>
        io.fault (http.Body (response 500 "Internal Server Error")) = None
        ∧ Error.StatusCode e = http.StatusCode (response 500 "Internal Server Error")
    | Some (lib_error text) =>
        io.fault (http.Body (response 500 "Internal Server Error")) = Some text
    | _ => False
    end.
Proof. apply DecodeResponse_error_status. simpl. lia. Defined.

Lemma DecodeResponse_unparsed_body_witness :
  ∃ e, DecodeResponse (response 500 "Internal Server Error") (Some Whitelist_zero)
       = (Some Whitelist_zero, Some (Error_value e))
       ∧ Error.StatusCode e = 500%Z
       ∧ Error.ErrorType e = ErrTypeUnknown
       ∧ Error.Description e = "Internal Server Error".
Proof.
  apply (DecodeResponse_unparsed_body 500 "Internal Server Error" "invalid character").
  - lia.
  - reflexivity.
Defined.

Lemma DecodeResponse_decode_failure_witness :
  (DecodeResponse (response 200 "<html>") (Some Whitelist_zero)).2
  = Some (Error_value {| Error.StatusCode := 0; Error.ErrorType := ErrTypeJSON;
                         Error.Description := "invalid character";
                         Error.Body := "" |}).
Proof.
  apply (DecodeResponse_decode_failure (response 200 "<html>") Whitelist_zero
           Whitelist_zero (Sample.drained (bytes.NewReader "<html>"))
           "invalid character").
  - simpl. lia.
  - reflexivity.
Defined.

Lemma nil_target_differs_witness :
  DecodeResponse (T := Whitelist) (response 204 "") None = (None, None)
  ∧ (part_006.DecodeResponse (T := Whitelist) (response 204 "") None).2 ≠ None.
Proof. apply nil_target_differs. simpl. lia. Defined.

Lemma whitelist_runner_failure_witness :
  outcome (GetWhitelist
             (failing_runner (Error_pointer {| Error.StatusCode := 404;
                                               Error.ErrorType := "notFound";
                                               Error.Description := "";
                                               Error.Body := "" |}))
             {| gwp_Id := "UC123"; gwp_OnBehalfOfContentOwner := "owner" |})
  = (None, Some (Error_pointer {| Error.StatusCode := 404;
                                  Error.ErrorType := "notFound";
                                  Error.Description := "";
                                  Error.Body := "" |})).
Proof.
  apply (whitelist_runner_failure
           (failing_runner (Error_pointer {| Error.StatusCode := 404;
                                             Error.ErrorType := "notFound";
                                             Error.Description := "";
                                             Error.Body := "" |}))
           _ "UC123" "owner").
  reflexivity.
Defined.

Lemma DeleteWhitelist_success_witness :
  outcome (DeleteWhitelist (constant_runner (response 204 ""))
             {| dwp_Id := "UC123"; dwp_OnBehalfOfContentOwner := "owner" |})
  = None.
Proof.
  apply (DeleteWhitelist_success _ (response 204 "")).
  - reflexivity.
  - simpl. lia.
Defined.

Lemma runners_coincide_witness :
  @AccessTokenRunner_Run (Sample.transport (response 200 "{}"))
    {| atr_AccessToken := ""; atr_Timeout := 30 |}
    {| Method := http.MethodGet; Url := UserInfoUrl; Params := ∅; Body := None |}
  = @UnauthenticatedRunner_Run (Sample.transport (response 200 "{}"))
      {| ur_Timeout := 30 |}
      {| Method := http.MethodGet; Url := UserInfoUrl; Params := ∅; Body := None |}
  ∧ @CustomClientRunner_Run (Sample.transport (response 200 "{}"))
      {| ccr_Client := @http.Client_Do (Sample.transport (response 200 "{}")) 30 |}
      {| Method := http.MethodGet; Url := UserInfoUrl; Params := ∅; Body := None |}
    = @UnauthenticatedRunner_Run (Sample.transport (response 200 "{}"))
        {| ur_Timeout := 30 |}
        {| Method := http.MethodGet; Url := UserInfoUrl; Params := ∅; Body := None |}.
Proof.
  apply (@runners_coincide (Sample.transport (response 200 "{}"))
           {| atr_AccessToken := ""; atr_Timeout := 30 |}).
  reflexivity.
Defined.
